(** * BDA-scraper: the profile crawler of [utils.py]

    A shallow embedding of the class [ProfileWebScraper] and of the
    properties of its crawl loop, its admission check and its text
    cleaning step.

    Python strings are sequences of Unicode code points; they are modelled
    as lists of code points, so that [len], [str.split], [str.strip] and
    [str.join] keep their meaning.  The HTTP client, the HTML parser, the
    URL library and the language model are collaborators of the program:
    they are the fields of the record [world], and every property of the
    crawl is proved for an arbitrary world. *)

From Stdlib Require Import NArith Ascii String Lia.
From stdpp Require Import base list sorting gmap.

Set Warnings "-register-all".

Local Open Scope N_scope.
Local Open Scope nat_scope.

(* ===================================================================== *)
(** * Python strings *)
(* ===================================================================== *)

(** A code point. *)
Abbreviation char := N (only parsing).

(** A Python [str]. *)
Abbreviation str := (list N) (only parsing).

(** An ASCII literal as a Python [str]. *)
Definition py (s : string) : str :=
  List.map N_of_ascii (list_ascii_of_string s).

Arguments py : simpl never.

Definition SPACE : char := 32%N.
Definition NEWLINE : char := 10%N.

(** The whitespace test behind [str.split()] and [str.strip()] without
    arguments (CPython's [_PyUnicode_IsWhitespace]): U+0009..U+000D,
    U+001C..U+001F, U+0020, U+0085, U+00A0, U+1680, U+2000..U+200A, U+2028,
    U+2029, U+202F, U+205F and U+3000. *)
Definition isspace (c : char) : bool :=
  ((9 <=? c) && (c <=? 13) || (28 <=? c) && (c <=? 31) || (c =? 32)
   || (c =? 133) || (c =? 160) || (c =? 5760)
   || (8192 <=? c) && (c <=? 8202) || (c =? 8232) || (c =? 8233)
   || (c =? 8239) || (c =? 8287) || (c =? 12288))%N.

(** [text.split()]: the maximal runs of non-whitespace characters, in
    order; no empty string is produced. *)
Fixpoint split_ws (s : str) : list str :=
  match s with
  | [] => []
  | c :: s' =>
      if isspace c then split_ws s'
      else match s' with
           | [] => [[c]]
           | d :: _ =>
               if isspace d then [c] :: split_ws s'
               else match split_ws s' with
                    | w :: ws => (c :: w) :: ws
                    | [] => [[c]]
                    end
           end
  end.

(** [text.split(sep)] for a one-character separator: cut at every
    occurrence, keeping empty pieces; the empty string gives [['']]. *)
Fixpoint split_on (sep : char) (s : str) : list str :=
  match s with
  | [] => [[]]
  | c :: s' =>
      if (c =? sep)%N then [] :: split_on sep s'
      else match split_on sep s' with
           | w :: ws => (c :: w) :: ws
           | [] => [[c]]
           end
  end.

(** [sep.join(pieces)]. *)
Fixpoint join (sep : str) (pieces : list str) : str :=
  match pieces with
  | [] => []
  | [w] => w
  | w :: ws => w ++ sep ++ join sep ws
  end.

Fixpoint lstrip (s : str) : str :=
  match s with
  | [] => []
  | c :: s' => if isspace c then lstrip s' else s
  end.

Definition rstrip (s : str) : str := rev (lstrip (rev s)).

(** [line.strip()]. *)
Definition strip (s : str) : str := rstrip (lstrip s).

(** A word as [str.split()] returns them: not empty, no whitespace. *)
Definition word (w : str) : Prop :=
  w ≠ [] ∧ Forall (λ c, isspace c = false) w.

(* ===================================================================== *)
(** * [clean_text] *)
(* ===================================================================== *)

(** Line 44: [' '.join(text.split())]. *)
Definition collapse (text : str) : str := join [SPACE] (split_ws text).

(** The test of the comprehension of line 45: [len(line.strip()) > 30]. *)
Definition keeps (line : str) : bool := 30 <? length (strip line).

(** Line 45: the list [lines]. *)
Definition clean_lines (text : str) : list str :=
  List.filter keeps (split_on NEWLINE (collapse text)).

(** [ProfileWebScraper.clean_text]. *)
Definition clean_text (text : str) : str :=
  let text := join [SPACE] (split_ws text) in
  let lines := List.filter keeps (split_on NEWLINE text) in
  join [NEWLINE] lines.

(** The cleaning step as the specification words it: a line is dropped
    when it is shorter than 30 characters, so a line of 30 characters or
    more is kept. *)
Definition keeps_spec (line : str) : bool := 30 <=? length line.

Definition clean_text_spec (text : str) : str :=
  join [NEWLINE]
    (List.filter keeps_spec (split_on NEWLINE (join [SPACE] (split_ws text)))).


(* ===================================================================== *)
(** * Python values decoded from JSON *)
(* ===================================================================== *)

(** What [json.loads] returns, and what the list [self.profiles] holds.
    The members of [JObj] are the items of the decoded dict, in which a
    key occurs once. *)
Inductive json : Type :=
| JNull
| JBool (b : bool)
| JInt (n : Z)
| JFloat (literal : str)
| JStr (s : str)
| JArr (items : list json)
| JObj (members : list (str * json)).

(** [d.get(key)] on a decoded object. *)
Fixpoint dict_get (key : str) (members : list (str * json)) : option json :=
  match members with
  | [] => None
  | (k, v) :: rest => if bool_decide (k = key) then Some v else dict_get key rest
  end.

(** [l.extend(x)]: the elements of a list, the characters of a string,
    the keys of a dict; on a value that is not iterable, [TypeError]
    ([None]). *)
Definition list_extend (l : list json) (x : json) : option (list json) :=
  match x with
  | JArr items => Some (l ++ items)
  | JStr s => Some (l ++ List.map (λ c, JStr [c]) s)
  | JObj members => Some (l ++ List.map (λ kv, JStr kv.1) members)
  | JNull | JBool _ | JInt _ | JFloat _ => None
  end.

(** The shape the system prompt of lines 53-57 asks for:
    [{"profiles": [{"name": ..., "about": ...}, ...]}]. *)
Definition is_profile_record (v : json) : bool :=
  match v with
  | JObj members =>
      match dict_get (py "name") members, dict_get (py "about") members with
      | Some (JStr _), Some (JStr _) => true
      | _, _ => false
      end
  | _ => false
  end.

Definition has_profiles_shape (v : json) : bool :=
  match v with
  | JObj members =>
      match dict_get (py "profiles") members with
      | Some (JArr items) => forallb is_profile_record items
      | _ => false
      end
  | _ => false
  end.

(* ===================================================================== *)
(** * The world around the scraper *)
(* ===================================================================== *)

(** The two components of [urlparse(url)] that the program reads. *)
Record parsed_url : Type := Parsed {
  scheme : str;
  netloc : str
}.

(** What lines 81-89 and line 71 give for one URL: an exception of
    [requests.get], an exception of [raise_for_status], an exception of
    the parser, or the visible text of the page ([soup.get_text], once
    the scripts and styles are removed) with the [href] of each anchor. *)
Inductive response : Type :=
| Get_raises
| Status_raises
| Parser_raises
| Page (text : str) (hrefs : list str).

(** What lines 50-63 give for one text: the API call raises, or
    [json.loads] raises on the content of the answer, or the content is
    decoded. *)
Inductive completion : Type :=
| Api_raises
| Loads_raises
| Decoded (v : json).

(** The collaborators.  [urlparse] and [urljoin] raise [ValueError] on
    some malformed URLs ([None]); the answers of the network and of the
    model may change from one request to the next, so they are indexed by
    the number of page requests issued before. *)
Record world : Type := World {
  urlparse : str → option parsed_url;
  urljoin : str → str → option str;
  http_get : nat → str → response;
  chat_completion : nat → str → completion
}.

(** What the program writes: the lines it prints (the text of an
    exception is left out), the pause of line 115, and the file it
    rewrites in [save_data]. *)
Inductive event : Type :=
| Print_scraping (url : str)
| Print_pages_scraped (n : Z)
| Print_error_openai
| Print_error_scraping (url : str)
| Sleep
| Write_profiles (snapshot : list json).

(* ===================================================================== *)
(** * [ProfileWebScraper] *)
(* ===================================================================== *)

(** The attributes of the object that the crawl reads and writes, with
    the events written so far and the number of page requests issued. *)
Record scraper : Type := Scraper {
  base_url : str;
  visited_urls : gset (list N);
  urls_to_visit : list (list N);
  profiles : list json;
  events : list event;
  requests : nat
}.

(** [__init__]. *)
Definition new_scraper (base : str) : scraper :=
  {| base_url := base; visited_urls := ∅; urls_to_visit := [];
     profiles := []; events := []; requests := 0 |}.

Definition set_visited_urls (v : gset (list N)) (self : scraper) : scraper :=
  {| base_url := base_url self; visited_urls := v;
     urls_to_visit := urls_to_visit self; profiles := profiles self;
     events := events self; requests := requests self |}.

Definition set_urls_to_visit (q : list (list N)) (self : scraper) : scraper :=
  {| base_url := base_url self; visited_urls := visited_urls self;
     urls_to_visit := q; profiles := profiles self;
     events := events self; requests := requests self |}.

Definition set_profiles (p : list json) (self : scraper) : scraper :=
  {| base_url := base_url self; visited_urls := visited_urls self;
     urls_to_visit := urls_to_visit self; profiles := p;
     events := events self; requests := requests self |}.

Definition emit (e : event) (self : scraper) : scraper :=
  {| base_url := base_url self; visited_urls := visited_urls self;
     urls_to_visit := urls_to_visit self; profiles := profiles self;
     events := events self ++ [e]; requests := requests self |}.

Definition count_request (self : scraper) : scraper :=
  {| base_url := base_url self; visited_urls := visited_urls self;
     urls_to_visit := urls_to_visit self; profiles := profiles self;
     events := events self; requests := S (requests self) |}.

(** [is_valid_url]: both calls of [urlparse] are inside the [try], and
    the bare [except] turns any exception into [False]. *)
Definition is_valid_url (w : world) (self : scraper) (url : str) : bool :=
  match urlparse w (base_url self) with
  | None => false
  | Some parsed_base =>
      match urlparse w url with
      | None => false
      | Some parsed =>
          bool_decide (netloc parsed = netloc parsed_base)
          && bool_decide (scheme parsed ∈ [py "http"; py "https"])
      end
  end.

(** [extract_profiles_with_openai]: the value returned and the object
    afterwards.  [result.get] exists only when the decoded value is a
    dict; every exception of the [try] block is printed and gives [[]]. *)
Definition extract_profiles_with_openai (w : world) (self : scraper)
    (text : str) : json * scraper :=
  match chat_completion w (requests self) text with
  | Decoded (JObj members) =>
      (default (JArr []) (dict_get (py "profiles") members), self)
  | Decoded _ | Api_raises | Loads_raises =>
      (JArr [], emit Print_error_openai self)
  end.

(** The test of lines 74-76. *)
Definition admits (w : world) (self : scraper) (absolute_url : str) : bool :=
  is_valid_url w self absolute_url
  && negb (bool_decide (absolute_url ∈ visited_urls self))
  && negb (bool_decide (absolute_url ∈ urls_to_visit self)).

(** [extract_links], on the [href]s of the anchors of the page.  The
    boolean is [false] when [urljoin] raised: the loop is left at that
    link, and the links appended before stay in the queue. *)
Fixpoint extract_links (w : world) (hrefs : list str) (current_url : str)
    (self : scraper) : bool * scraper :=
  match hrefs with
  | [] => (true, self)
  | href :: rest =>
      match urljoin w current_url href with
      | None => (false, self)
      | Some absolute_url =>
          extract_links w rest current_url
            (if admits w self absolute_url
             then set_urls_to_visit (urls_to_visit self ++ [absolute_url]) self
             else self)
      end
  end.

(** [scrape_page]: the boolean returned and the object afterwards. *)
Definition scrape_page (w : world) (self : scraper) (url : str)
    : bool * scraper :=
  let n := requests self in
  let self := count_request self in
  match http_get w n url with
  | Page text hrefs =>
      let text := clean_text text in
      let '(extracted_profiles, self) :=
        extract_profiles_with_openai w self text in
      match list_extend (profiles self) extracted_profiles with
      | None => (false, emit (Print_error_scraping url) self)
      | Some extended =>
          let '(finished, self) :=
            extract_links w hrefs url (set_profiles extended self) in
          if finished then (true, self)
          else (false, emit (Print_error_scraping url) self)
      end
  | Get_raises | Status_raises | Parser_raises =>
      (false, emit (Print_error_scraping url) self)
  end.

(** [save_data]: the file is rewritten with the profiles found so far. *)
Definition save_data (self : scraper) : scraper :=
  emit (Write_profiles (profiles self)) self.

(** Lines 113-115: the line printed, the URL marked, the pause. *)
Definition visit (current_url : str) (self : scraper) : scraper :=
  emit Sleep
    (set_visited_urls ({[current_url]} ∪ visited_urls self)
       (emit (Print_scraping current_url) self)).

(** The state of the loop of [scrape_website]: the object and the local
    variable [pages_scraped]. *)
Definition loop_state : Type := scraper * Z.

(** The condition of line 107. *)
Definition loop_cond (max_pages : Z) (st : loop_state) : bool :=
  match urls_to_visit st.1 with
  | [] => false
  | _ :: _ => (st.2 <? max_pages)%Z
  end.

(** Lines 108-122, one turn of the loop. *)
Definition loop_body (w : world) (st : loop_state) : loop_state :=
  let '(self, pages_scraped) := st in
  match urls_to_visit self with
  | [] => st
  | current_url :: rest =>
      let self := set_urls_to_visit rest self in
      if bool_decide (current_url ∈ visited_urls self) then
        (self, pages_scraped)
      else
        let self := emit (Print_scraping current_url) self in
        let self :=
          set_visited_urls ({[current_url]} ∪ visited_urls self) self in
        let self := emit Sleep self in
        let '(scraped, self) := scrape_page w self current_url in
        let '(self, pages_scraped) :=
          if scraped
          then (emit (Print_pages_scraped (pages_scraped + 1)) self,
                (pages_scraped + 1)%Z)
          else (self, pages_scraped) in
        if (pages_scraped mod 10 =? 0)%Z
        then (save_data self, pages_scraped)
        else (self, pages_scraped)
  end.

(** The [while] loop, with a bound on the number of turns: [None] when
    the bound is reached with the condition still true. *)
Fixpoint scrape_website_loop (w : world) (max_pages : Z) (fuel : nat)
    (st : loop_state) : option loop_state :=
  if loop_cond max_pages st then
    match fuel with
    | O => None
    | S fuel' => scrape_website_loop w max_pages fuel' (loop_body w st)
    end
  else Some st.

(** The state at the first test of line 107. *)
Definition loop_entry (self : scraper) : loop_state :=
  (set_urls_to_visit (urls_to_visit self ++ [base_url self]) self, 0%Z).

(** [scrape_website]. *)
Definition scrape_website (w : world) (max_pages : Z) (fuel : nat)
    (self : scraper) : option scraper :=
  match scrape_website_loop w max_pages fuel (loop_entry self) with
  | Some (self, _) => Some (save_data self)
  | None => None
  end.

(** ** The run as a transition system *)

(** One turn of the loop, taken when the condition holds. *)
Definition turn (w : world) (max_pages : Z) (st st' : loop_state) : Prop :=
  loop_cond max_pages st = true ∧ st' = loop_body w st.

(** The loop states of a run of [scrape_website] on a new object. *)
Definition reachable (w : world) (max_pages : Z) (base : str)
    (st : loop_state) : Prop :=
  rtc (turn w max_pages) (loop_entry (new_scraper base)) st.

(** The URLs of the lines [Scraping: ...], in order: the pages handed to
    [scrape_page]. *)
Definition scraped_url (e : event) : option (list N) :=
  match e with
  | Print_scraping url => Some url
  | _ => None
  end.

Definition scraped_urls (evs : list event) : list (list N) :=
  omap scraped_url evs.

(** The snapshots written by [save_data], in order. *)
Definition saved_snapshot (e : event) : option (list json) :=
  match e with
  | Write_profiles snapshot => Some snapshot
  | _ => None
  end.

Definition saved_snapshots (evs : list event) : list (list json) :=
  omap saved_snapshot evs.

(** No URL is both visited and pending, and the queue has no duplicate. *)
Definition frontier_ok (self : scraper) : Prop :=
  (∀ u, u ∈ urls_to_visit self → u ∉ visited_urls self)
  ∧ NoDup (urls_to_visit self).

(** ** The points of a run

    The successive values of the object during a run, one for each
    statement that changes it: the loop states, and inside a turn the
    object after [popleft], after lines 113-115, after [extend] and after
    each link of [extract_links]. *)

(** The object after each link that [extract_links] went through. *)
Fixpoint links_points (w : world) (hrefs : list str) (current_url : str)
    (self : scraper) : list scraper :=
  match hrefs with
  | [] => []
  | href :: rest =>
      match urljoin w current_url href with
      | None => []
      | Some absolute_url =>
          let self :=
            if admits w self absolute_url
            then set_urls_to_visit (urls_to_visit self ++ [absolute_url]) self
            else self in
          self :: links_points w rest current_url self
      end
  end.

(** The object after line 94 and after each link, in [scrape_page]. *)
Definition page_points (w : world) (self : scraper) (url : str)
    : list scraper :=
  let n := requests self in
  let self := count_request self in
  match http_get w n url with
  | Page text hrefs =>
      let '(extracted_profiles, self) :=
        extract_profiles_with_openai w self (clean_text text) in
      match list_extend (profiles self) extracted_profiles with
      | None => []
      | Some extended =>
          let self := set_profiles extended self in
          self :: links_points w hrefs url self
      end
  | Get_raises | Status_raises | Parser_raises => []
  end.

(** The points inside the turn that starts in [st]. *)
Definition turn_points (w : world) (st : loop_state) : list scraper :=
  let '(self, pages_scraped) := st in
  match urls_to_visit self with
  | [] => []
  | current_url :: rest =>
      let self := set_urls_to_visit rest self in
      if bool_decide (current_url ∈ visited_urls self) then [self]
      else
        let popped := self in
        let self := emit (Print_scraping current_url) self in
        let self :=
          set_visited_urls ({[current_url]} ∪ visited_urls self) self in
        let self := emit Sleep self in
        popped :: self :: page_points w self current_url
  end.

(** The points of the loop from [st] on, for at most [fuel] turns. *)
Fixpoint crawl_trace (w : world) (max_pages : Z) (fuel : nat)
    (st : loop_state) : list scraper :=
  st.1 ::
  match fuel with
  | O => []
  | S fuel' =>
      if loop_cond max_pages st
      then turn_points w st ++ crawl_trace w max_pages fuel' (loop_body w st)
      else []
  end.

(** The points of [scrape_website] on a new object. *)
Definition run_trace (w : world) (max_pages : Z) (fuel : nat) (base : str)
    : list scraper :=
  new_scraper base :: crawl_trace w max_pages fuel (loop_entry (new_scraper base)).

(** What holds of the object at every point of a run from [base]: it
    keeps its base URL; no URL is both visited and pending and none is
    queued twice; no page was handed to [scrape_page] twice, and every
    such page is visited; a queued URL is the base URL or passed
    [is_valid_url]. *)
Definition crawl_inv (w : world) (base : str) (p : scraper) : Prop :=
  base_url p = base
  ∧ frontier_ok p
  ∧ NoDup (scraped_urls (events p))
  ∧ (∀ u, u ∈ scraped_urls (events p) → u ∈ visited_urls p)
  ∧ (∀ u, u ∈ urls_to_visit p → u = base ∨ is_valid_url w p u = true).

(** The visited set of [p] is kept by [q]. *)
Definition visited_kept (p q : scraper) : Prop :=
  visited_urls p ⊆ visited_urls q.

(** A world in which [urljoin] accepts every link of every page. *)
Definition links_join (w : world) : Prop :=
  ∀ n url text hrefs,
    http_get w n url = Page text hrefs →
    Forall (λ href, urljoin w url href ≠ None) hrefs.

(* ===================================================================== *)
(** * Sample worlds *)
(* ===================================================================== *)

(** [urlsplit] of the standard library on printable ASCII URLs, for the
    two components read here: the scheme is the text before the first
    [:] when it starts with a letter and holds scheme characters only,
    lower-cased; the network location follows [//] and ends before the
    first of [/ ? #]; an unbalanced square bracket in it raises
    [ValueError] ("Invalid IPv6 URL"). *)
Definition is_alpha (c : char) : bool :=
  ((65 <=? c) && (c <=? 90) || (97 <=? c) && (c <=? 122))%N.

Definition is_scheme_char (c : char) : bool :=
  (is_alpha c || (48 <=? c) && (c <=? 57)
   || (c =? 43) || (c =? 45) || (c =? 46))%N.

Definition lower (c : char) : char :=
  if ((65 <=? c) && (c <=? 90))%N then (c + 32)%N else c.

(** [s.partition(sep)] when [sep] occurs: the text before the first
    occurrence and the text after it. *)
Fixpoint cut_at (sep : char) (s : str) : option (str * str) :=
  match s with
  | [] => None
  | c :: s' =>
      if (c =? sep)%N then Some ([], s')
      else match cut_at sep s' with
           | Some (before, after) => Some (c :: before, after)
           | None => None
           end
  end.

Fixpoint take_until (stop : char → bool) (s : str) : str :=
  match s with
  | [] => []
  | c :: s' => if stop c then [] else c :: take_until stop s'
  end.

Definition has_char (c : char) (s : str) : bool := existsb (N.eqb c) s.

Definition urlsplit_ascii (url : str) : option parsed_url :=
  let '(scheme, rest) :=
    match cut_at 58%N url with
    | Some (c :: before, after) =>
        if is_alpha c && forallb is_scheme_char (c :: before)
        then (List.map lower (c :: before), after)
        else ([], url)
    | _ => ([], url)
    end in
  match rest with
  | 47%N :: 47%N :: after =>
      let netloc :=
        take_until (λ c, (c =? 47) || (c =? 63) || (c =? 35))%N after in
      if xorb (has_char 91%N netloc) (has_char 93%N netloc) then None
      else Some (Parsed scheme netloc)
  | _ => Some (Parsed scheme [])
  end.

(** [urljoin] on the links of the sample sites, which are absolute URLs
    with a network location: such a link is returned as it is, and a link
    that [urlsplit] refuses raises. *)
Definition urljoin_absolute (current_url href : str) : option str :=
  match urlsplit_ascii href with
  | Some _ => Some href
  | None => None
  end.

Definition ada : json :=
  JObj [(py "name", JStr (py "Ada"));
        (py "about",
         JStr (py "A pioneering computer scientist with a very long biography sentence here."))].

(** A site of two pages: the home page links to the page [/about] and to
    another host; the request for [/about] times out.  The model finds
    one profile in every text. *)
Definition example_site : world := {|
  urlparse := urlsplit_ascii;
  urljoin := urljoin_absolute;
  http_get := λ _ url,
    if bool_decide (url = py "http://example.com")
    then Page (py "Ada  Lovelace")
              [py "http://example.com/about"; py "http://other.com/x"]
    else Get_raises;
  chat_completion := λ _ _, Decoded (JObj [(py "profiles", JArr [ada])])
|}.

(** The same site while the model's API is down. *)
Definition example_site_api_down : world := {|
  urlparse := urlsplit_ascii;
  urljoin := urljoin_absolute;
  http_get := http_get example_site;
  chat_completion := λ _ _, Api_raises
|}.

(** A model that answers with valid JSON of another shape:
    [{"profiles": [1]}]. *)
Definition example_site_odd_answer : world := {|
  urlparse := urlsplit_ascii;
  urljoin := urljoin_absolute;
  http_get := http_get example_site;
  chat_completion := λ _ _, Decoded (JObj [(py "profiles", JArr [JInt 1])])
|}.

Definition example_base : str := py "http://example.com".

Definition example_about : str := py "http://example.com/about".

(** The points of the crawl of the site of two pages, by index. *)
Definition example_point (i : nat) : scraper :=
  default (new_scraper example_base)
    (run_trace example_site 50 3 example_base !! i).

(** A chain of pages: the page at [url] links to [url ++ "a"], and the
    model finds one profile in every page. *)
Definition chain_site : world := {|
  urlparse := urlsplit_ascii;
  urljoin := urljoin_absolute;
  http_get := λ _ url, Page [] [url ++ py "a"];
  chat_completion := λ _ _, Decoded (JObj [(py "profiles", JArr [ada])])
|}.

(** A site without end: the page at [url] links to [url ++ "a"], and
    then holds an anchor whose [href] is [//[]. *)
Definition endless_site : world := {|
  urlparse := urlsplit_ascii;
  urljoin := urljoin_absolute;
  http_get := λ _ url, Page [] [url ++ py "a"; py "//["];
  chat_completion := λ _ _, Decoded (JObj [(py "profiles", JArr [])])
|}.

(* ===================================================================== *)
(** * Observations on a run *)
(* ===================================================================== *)

(** The numbers of the lines [Pages scraped: ...], in order. *)
Definition counted_page (e : event) : option Z :=
  match e with
  | Print_pages_scraped n => Some n
  | _ => None
  end.

Definition counted_pages (evs : list event) : list Z :=
  omap counted_page evs.

(** The URLs in the order in which the crawl met them: the pages
    scraped so far, then the queue. *)
Definition discovery_order (p : scraper) : list (list N) :=
  scraped_urls (events p) ++ urls_to_visit p.

(** A line printed by an exception handler while [url] is scraped. *)
Definition error_line (url : str) (e : event) : Prop :=
  e = Print_error_openai ∨ e = Print_error_scraping url.

(** What holds of the loop states of a run from [base], beside
    [crawl_inv]: one request was issued for each page scraped; the visited
    URLs are the pages scraped; the counter is between 0 and the maximum and
    the lines [Pages scraped: ...] count 1, 2, ... up to it; every snapshot
    written is a prefix of the profiles; every page scraped is the base URL
    or passed [is_valid_url]; the base URL was met first. *)
Definition run_inv (w : world) (max_pages : Z) (base : str)
    (st : loop_state) : Prop :=
  requests st.1 = length (scraped_urls (events st.1))
  ∧ (∀ u, u ∈ visited_urls st.1 ↔ u ∈ scraped_urls (events st.1))
  ∧ (0 ≤ st.2 ≤ Z.max 0 max_pages)%Z
  ∧ counted_pages (events st.1) = List.map Z.of_nat (seq 1 (Z.to_nat st.2))
  ∧ Forall (λ snapshot, snapshot `prefix_of` profiles st.1)
      (saved_snapshots (events st.1))
  ∧ (∀ u, u ∈ scraped_urls (events st.1) →
          u = base ∨ is_valid_url w (new_scraper base) u = true)
  ∧ [base] `prefix_of` discovery_order st.1.

(** The object at the end of the crawl of the site of two pages. *)
Definition example_final : scraper :=
  default (new_scraper example_base)
    (scrape_website example_site 50 2 (new_scraper example_base)).

(* ===================================================================== *)
(** * Properties of the string operations *)
(* ===================================================================== *)

(** ** Facts about the string operations *)

Lemma isspace_SPACE : isspace SPACE = true.
Proof. reflexivity. Qed.

Lemma isspace_NEWLINE : isspace NEWLINE = true.
Proof. reflexivity. Qed.

Lemma split_ws_words (s : str) : Forall word (split_ws s).
Proof.
  induction s as [|c s IH]; simpl; [constructor|].
  destruct (isspace c) eqn:Hc; [exact IH|].
  destruct s as [|d s'].
  - repeat constructor; [discriminate | exact Hc].
  - destruct (isspace d) eqn:Hd.
    + constructor; [|exact IH].
      split; [discriminate | repeat constructor; exact Hc].
    + destruct (split_ws (d :: s')) as [|w ws].
      * repeat constructor; [discriminate | exact Hc].
      * inversion IH as [|? ? [Hw1 Hw2] Hws]; subst.
        constructor; [|exact Hws].
        split; [discriminate | constructor; [exact Hc | exact Hw2]].
Qed.

Lemma split_ws_nospace (w : str) :
  word w → split_ws w = [w].
Proof.
  intros [Hne Hw]. induction Hw as [|c w Hc Hw IH]; [done|].
  simpl. rewrite Hc. destruct w as [|d w']; [done|].
  inversion Hw as [|? ? Hd _]; subst. rewrite Hd.
  rewrite IH; [done | discriminate].
Qed.

Lemma split_ws_word_space (w rest : str) :
  word w → split_ws (w ++ SPACE :: rest) = w :: split_ws rest.
Proof.
  intros [Hne Hw]. induction Hw as [|c w Hc Hw IH]; [done|].
  cbn [app split_ws]. rewrite Hc. destruct w as [|d w'].
  - cbn [app]. rewrite isspace_SPACE. cbn [split_ws]. by rewrite isspace_SPACE.
  - cbn [app]. inversion Hw as [|? ? Hd _]; subst. rewrite Hd.
    change (d :: w' ++ SPACE :: rest) with ((d :: w') ++ SPACE :: rest).
    rewrite IH; [done | discriminate].
Qed.

(** Splitting the joined words gives the words back. *)
Lemma split_ws_join (ws : list str) :
  Forall word ws → split_ws (join [SPACE] ws) = ws.
Proof.
  induction 1 as [|w ws Hw Hws IH]; [done|].
  destruct ws as [|w' ws'].
  - simpl. by apply split_ws_nospace.
  - change (join [SPACE] (w :: w' :: ws'))
      with (w ++ SPACE :: join [SPACE] (w' :: ws')).
    rewrite split_ws_word_space by done. by rewrite IH.
Qed.

Lemma collapse_collapse (text : str) : collapse (collapse text) = collapse text.
Proof.
  unfold collapse at 1. unfold collapse at 1.
  rewrite split_ws_join; [done | apply split_ws_words].
Qed.

Lemma join_words_no_newline (ws : list str) :
  Forall word ws → Forall (λ c, c ≠ NEWLINE) (join [SPACE] ws).
Proof.
  assert (Hword : ∀ w, word w → Forall (λ c, c ≠ NEWLINE) w).
  { intros w [_ Hw]. eapply Forall_impl; [exact Hw|].
    intros c Hc ->. by rewrite isspace_NEWLINE in Hc. }
  induction 1 as [|w ws Hw Hws IH]; [constructor|].
  destruct ws as [|w' ws']; [by apply Hword|].
  change (join [SPACE] (w :: w' :: ws'))
    with (w ++ SPACE :: join [SPACE] (w' :: ws')).
  apply Forall_app; split; [by apply Hword|].
  constructor; [discriminate | exact IH].
Qed.

Lemma split_on_absent (sep : char) (s : str) :
  Forall (λ c, c ≠ sep) s → split_on sep s = [s].
Proof.
  induction 1 as [|c s Hc Hs IH]; [done|].
  simpl. apply N.eqb_neq in Hc. by rewrite Hc, IH.
Qed.

Lemma lstrip_head (c : char) (s : str) :
  isspace c = false → lstrip (c :: s) = c :: s.
Proof. intros Hc. simpl. by rewrite Hc. Qed.

(** The first and the last character of a joined list of words are not
    whitespace. *)
Lemma join_words_head (ws : list str) :
  Forall word ws →
  join [SPACE] ws = [] ∨ ∃ c s, join [SPACE] ws = c :: s ∧ isspace c = false.
Proof.
  intros Hws. destruct Hws as [|w ws [Hne Hw] Hws]; [by left|].
  right. destruct w as [|c w]; [done|].
  inversion Hw as [|? ? Hc _]; subst.
  destruct ws; simpl; eauto.
Qed.

Lemma join_words_last (ws : list str) :
  Forall word ws →
  join [SPACE] ws = [] ∨
  ∃ c s, rev (join [SPACE] ws) = c :: s ∧ isspace c = false.
Proof.
  induction 1 as [|w ws [Hne Hw] Hws IH]; [by left|].
  right. destruct ws as [|w' ws'].
  - simpl. destruct (rev w) as [|c s] eqn:Hrev.
    + apply (f_equal (@rev N)) in Hrev. rewrite rev_involutive in Hrev. done.
    + exists c, s. split; [done|].
      assert (Hin : In c (rev w)) by (rewrite Hrev; left; done).
      apply in_rev, list_elem_of_In in Hin.
      by eapply (proj1 (Forall_forall _ _) Hw).
  - change (join [SPACE] (w :: w' :: ws'))
      with (w ++ SPACE :: join [SPACE] (w' :: ws')).
    destruct IH as [Hnil | (c & s & Hrev & Hc)].
    + exfalso. inversion Hws as [|? ? [Hne' _] _]; subst.
      destruct w' as [|? ?]; [done|]. destruct ws'; discriminate.
    + exists c, (s ++ rev (w ++ [SPACE])). split; [|done].
      change (w ++ SPACE :: join [SPACE] (w' :: ws'))
        with (w ++ [SPACE] ++ join [SPACE] (w' :: ws')).
      rewrite app_assoc, rev_app_distr, Hrev. done.
Qed.

Lemma strip_collapse (text : str) : strip (collapse text) = collapse text.
Proof.
  unfold collapse, strip, rstrip.
  pose proof (split_ws_words text) as Hws.
  destruct (join_words_head _ Hws) as [-> | (c & s & Heq & Hc)]; [done|].
  destruct (join_words_last _ Hws) as [Hnil | (d & r & Hrev & Hd)].
  { rewrite Hnil in Heq. done. }
  rewrite Heq, lstrip_head by done. rewrite <- Heq, Hrev.
  rewrite lstrip_head by done. by rewrite <- Hrev, rev_involutive.
Qed.

(** After line 44 the text holds no line break, so line 45 sees one
    line, the whole text, and keeps it or drops it. *)
Lemma clean_text_cases (text : str) :
  clean_text text =
  if 30 <? length (collapse text) then collapse text else [].
Proof.
  unfold clean_text. fold (collapse text).
  rewrite split_on_absent
    by (apply join_words_no_newline, split_ws_words).
  simpl. unfold keeps. rewrite strip_collapse.
  by destruct (30 <? length (collapse text)).
Qed.

(* ===================================================================== *)
(** * Properties of [clean_text] *)
(* ===================================================================== *)

Lemma join_words_spaces (ws : list str) :
  Forall word ws →
  Forall (λ c, isspace c = true → c = SPACE) (join [SPACE] ws).
Proof.
  assert (Hword : ∀ w, word w → Forall (λ c, isspace c = true → c = SPACE) w).
  { intros w [_ Hw]. eapply Forall_impl; [exact Hw|].
    intros c Hc Hc'. congruence. }
  induction 1 as [|w ws Hw Hws IH]; [constructor|].
  destruct ws as [|w' ws']; [by apply Hword|].
  change (join [SPACE] (w :: w' :: ws'))
    with (w ++ SPACE :: join [SPACE] (w' :: ws')).
  apply Forall_app; split; [by apply Hword|].
  constructor; [done | exact IH].
Qed.

Lemma elem_of_filter_keeps (line : str) (lines : list str) :
  line ∈ List.filter keeps lines ↔ line ∈ lines ∧ 30 < length (strip line).
Proof.
  rewrite !list_elem_of_In, filter_In. unfold keeps.
  by rewrite Nat.ltb_lt.
Qed.

Lemma word_no_space (w : str) (i : nat) :
  word w → w !! i ≠ Some SPACE.
Proof.
  intros [_ Hw] Hi. apply list_elem_of_lookup_2 in Hi.
  apply (proj1 (Forall_forall _ _) Hw) in Hi.
  by rewrite isspace_SPACE in Hi.
Qed.

(** No two spaces in a row between the joined words. *)
Lemma join_words_no_double (ws : list str) :
  Forall word ws →
  ∀ i, join [SPACE] ws !! i = Some SPACE →
       join [SPACE] ws !! S i ≠ Some SPACE.
Proof.
  induction 1 as [|w ws Hw Hws IH]; intros i Hi.
  { by destruct i. }
  destruct ws as [|w' ws'].
  { simpl in Hi. by apply word_no_space in Hi. }
  change (join [SPACE] (w :: w' :: ws'))
    with (w ++ SPACE :: join [SPACE] (w' :: ws')) in *.
  assert (Hhead : ∃ c r, join [SPACE] (w' :: ws') = c :: r ∧ isspace c = false).
  { destruct (join_words_head _ Hws) as [Hnil | ?]; [|done].
    exfalso. inversion Hws as [|? ? [Hne' _] _]; subst.
    destruct w' as [|? ?]; [done|]. destruct ws'; discriminate. }
  set (r := join [SPACE] (w' :: ws')) in *.
  destruct (decide (i < length w)) as [Hlt | Hge].
  { rewrite lookup_app_l in Hi by done. by apply word_no_space in Hi. }
  rewrite lookup_app_r by lia.
  replace (S i - length w) with (S (i - length w)) by lia.
  rewrite lookup_app_r in Hi by lia.
  destruct (i - length w) as [|j] eqn:Hj; simpl in Hi |- *.
  - destruct Hhead as (c & r' & -> & Hc). simpl.
    intros [= ->]. by rewrite isspace_SPACE in Hc.
  - by apply IH.
Qed.

Lemma split_on_nonempty (sep : char) (s : str) : split_on sep s ≠ [].
Proof.
  destruct s as [|c s]; [done|]. simpl.
  destruct (c =? sep)%N; [done|]. by destruct (split_on sep s).
Qed.

(** Joining the pieces of [s.split(sep)] with [sep] gives [s] back. *)
Lemma join_split_on (sep : char) (s : str) :
  join [sep] (split_on sep s) = s.
Proof.
  induction s as [|c s IH]; [done|]. simpl.
  pose proof (split_on_nonempty sep s) as Hne.
  destruct (c =? sep)%N eqn:Hc.
  - apply N.eqb_eq in Hc. subst c.
    destruct (split_on sep s) as [|w ws]; [done|].
    change (join [sep] ([] :: w :: ws)) with (sep :: join [sep] (w :: ws)).
    by rewrite IH.
  - destruct (split_on sep s) as [|w ws]; [done|].
    assert (Hjoin : join [sep] ((c :: w) :: ws) = c :: join [sep] (w :: ws))
      by (by destruct ws).
    by rewrite Hjoin, IH.
Qed.

(** No piece of [s.split(sep)] holds [sep]. *)
Lemma split_on_pieces (sep : char) (s : str) :
  Forall (λ piece, sep ∉ piece) (split_on sep s).
Proof.
  induction s as [|c s IH]; simpl.
  { constructor; [apply not_elem_of_nil | constructor]. }
  destruct (c =? sep)%N eqn:Hc.
  - constructor; [apply not_elem_of_nil | exact IH].
  - apply N.eqb_neq in Hc.
    destruct (split_on sep s) as [|w ws].
    + constructor; [|constructor].
      intros Hin. apply list_elem_of_singleton in Hin. congruence.
    + inversion IH as [|? ? Hw Hrest]; subst. constructor; [|exact Hrest].
      intros [Heq | Hin]%elem_of_cons; [congruence | done].
Qed.

Lemma filter_sublist {A : Type} (f : A → bool) (l : list A) :
  List.filter f l `sublist_of` l.
Proof.
  induction l as [|x l IH]; simpl; [constructor|].
  destruct (f x); by constructor.
Qed.

(** C4 (as amended): the cleaning step first collapses every run of
    whitespace to one space: the collapsed text has the words of the text,
    in order, its only whitespace is the space, it neither starts nor ends
    with whitespace, and it holds no two spaces in a row.  It then splits
    on line breaks (the pieces hold no newline, and joined with newlines
    they give the collapsed text back), keeps, in order, the lines whose
    stripped length is more than 30 characters and drops the others, and
    joins the kept lines with newlines (when a line is kept, splitting the
    result on newlines gives the kept lines back). *)
Theorem clean_text_pipeline (text : str) :
  split_ws (collapse text) = split_ws text
  ∧ Forall (λ c, isspace c = true → c = SPACE) (collapse text)
  ∧ strip (collapse text) = collapse text
  ∧ (∀ i, collapse text !! i = Some SPACE →
          collapse text !! S i ≠ Some SPACE)
  ∧ Forall (λ line, NEWLINE ∉ line) (split_on NEWLINE (collapse text))
  ∧ join [NEWLINE] (split_on NEWLINE (collapse text)) = collapse text
  ∧ clean_lines text `sublist_of` split_on NEWLINE (collapse text)
  ∧ (∀ line, line ∈ clean_lines text ↔
       line ∈ split_on NEWLINE (collapse text) ∧ 30 < length (strip line))
  ∧ clean_text text = join [NEWLINE] (clean_lines text)
  ∧ (clean_lines text ≠ [] →
     split_on NEWLINE (clean_text text) = clean_lines text).
Proof.
  split_and!.
  - unfold collapse. apply split_ws_join, split_ws_words.
  - apply join_words_spaces, split_ws_words.
  - apply strip_collapse.
  - apply join_words_no_double, split_ws_words.
  - apply split_on_pieces.
  - apply join_split_on.
  - apply filter_sublist.
  - intros line. apply elem_of_filter_keeps.
  - reflexivity.
  - assert (Hnl : Forall (λ c, c ≠ NEWLINE) (collapse text))
      by apply join_words_no_newline, split_ws_words.
    unfold clean_text. fold (collapse text). unfold clean_lines.
    rewrite split_on_absent by done. simpl.
    destruct (keeps (collapse text)); [|done].
    intros _. simpl. by apply split_on_absent.
Qed.

(** A text of five words in 35 characters once collapsed: it is kept. *)
Lemma clean_text_pipeline_witness :
  split_on NEWLINE
    (clean_text (py "  Ada   Lovelace wrote the first   program   "))
  = clean_lines (py "  Ada   Lovelace wrote the first   program   ").
Proof.
  destruct (clean_text_pipeline
              (py "  Ada   Lovelace wrote the first   program   "))
    as (_ & _ & _ & _ & _ & _ & _ & _ & _ & Hsplit).
  apply Hsplit. vm_compute. discriminate.
Defined.

(** C4 (as stated) fails: a line of exactly 30 characters is a line of
    the collapsed text and is not shorter than 30 characters, yet the
    cleaning step drops it. *)
Lemma clean_text_drops_line_of_30 :
  let line := py "abcdefghijklmnopqrstuvwxyz0123" in
  length line = 30
  ∧ split_on NEWLINE (collapse line) = [line]
  ∧ clean_text_spec line = line
  ∧ clean_lines line = []
  ∧ clean_text line = [].
Proof. vm_compute. repeat split; reflexivity. Qed.

(** C9: cleaning a cleaned text changes nothing. *)
Theorem clean_text_idempotent (text : str) :
  clean_text (clean_text text) = clean_text text.
Proof.
  rewrite (clean_text_cases text).
  destruct (30 <? length (collapse text)) eqn:Hlen; [|reflexivity].
  rewrite clean_text_cases, collapse_collapse. by rewrite Hlen.
Qed.

(** C10: the cleaned text holds no newline; line 45 sees one line, so
    the result is the whole collapsed text when its stripped length
    exceeds 30 characters, and the empty string otherwise. *)
Theorem clean_text_single_line (text : str) :
  (NEWLINE ∉ clean_text text)
  ∧ length (clean_lines text) ≤ 1
  ∧ clean_text text =
    (if 30 <? length (strip (collapse text)) then collapse text else []).
Proof.
  assert (Hnl : Forall (λ c, c ≠ NEWLINE) (collapse text))
    by apply join_words_no_newline, split_ws_words.
  split; [|split].
  - rewrite clean_text_cases.
    destruct (30 <? length (collapse text)); [|by apply not_elem_of_nil].
    intros Hin. by apply (proj1 (Forall_forall _ _) Hnl) in Hin.
  - unfold clean_lines. rewrite split_on_absent by done.
    simpl. destruct (keeps (collapse text)); simpl; lia.
  - rewrite strip_collapse. apply clean_text_cases.
Qed.

(* ===================================================================== *)
(** * Properties of the crawl *)
(* ===================================================================== *)

Section Crawl.

Context (w : world).

(** ** The invariant, statement by statement *)

Lemma crawl_inv_entry (base : str) :
  crawl_inv w base (loop_entry (new_scraper base)).1.
Proof.
  unfold crawl_inv, frontier_ok; simpl. split_and!.
  - done.
  - intros u _. apply not_elem_of_empty.
  - apply NoDup_singleton.
  - constructor.
  - intros u Hu. by apply elem_of_nil in Hu.
  - intros u Hu. apply list_elem_of_singleton in Hu. by left.
Qed.

Lemma crawl_inv_emit (base : str) (e : event) (p : scraper) :
  scraped_url e = None → crawl_inv w base p → crawl_inv w base (emit e p).
Proof.
  intros He (Hb & Hf & Hnd & Hsv & Hq).
  unfold crawl_inv, frontier_ok, scraped_urls in *; simpl.
  rewrite omap_app; simpl. rewrite He, app_nil_r. done.
Qed.

Lemma crawl_inv_set_profiles (base : str) (l : list json) (p : scraper) :
  crawl_inv w base p → crawl_inv w base (set_profiles l p).
Proof. done. Qed.

Lemma crawl_inv_count_request (base : str) (p : scraper) :
  crawl_inv w base p → crawl_inv w base (count_request p).
Proof. done. Qed.

Lemma admits_true (p : scraper) (a : str) :
  admits w p a = true ↔
  is_valid_url w p a = true ∧ (a ∉ visited_urls p) ∧ (a ∉ urls_to_visit p).
Proof.
  unfold admits. rewrite !andb_true_iff, !negb_true_iff.
  rewrite !bool_decide_eq_false. tauto.
Qed.

(** Line 77, under the test of lines 74-76. *)
Lemma crawl_inv_append (base : str) (p : scraper) (a : str) :
  admits w p a = true → crawl_inv w base p →
  crawl_inv w base (set_urls_to_visit (urls_to_visit p ++ [a]) p).
Proof.
  rewrite admits_true. intros (Hvalid & Hnv & Hnq) (Hb & [Hd Hnd] & Hs & Hsv & Hq).
  unfold crawl_inv, frontier_ok; simpl. split_and!; try done.
  - intros u [Hu | Hu]%elem_of_app; [by apply Hd|].
    apply list_elem_of_singleton in Hu. by subst.
  - apply NoDup_app. split_and!; [done | | apply NoDup_singleton].
    intros u Hu Hu'. apply list_elem_of_singleton in Hu'. by subst.
  - intros u [Hu | Hu]%elem_of_app; [by apply Hq|].
    apply list_elem_of_singleton in Hu. subst. by right.
Qed.

(** Line 108. *)
Lemma crawl_inv_popleft (base : str) (p : scraper) (u : str) (rest : list str) :
  urls_to_visit p = u :: rest → crawl_inv w base p →
  crawl_inv w base (set_urls_to_visit rest p)
  ∧ (u ∉ rest) ∧ (u ∉ visited_urls p).
Proof.
  intros Hqueue (Hb & [Hd Hnd] & Hs & Hsv & Hq).
  rewrite Hqueue in Hd, Hnd, Hq. apply NoDup_cons in Hnd as [Hu Hnd].
  split_and!; [| done | apply Hd; left].
  unfold crawl_inv, frontier_ok; simpl. split_and!; try done.
  - intros v Hv. apply Hd. by right.
  - intros v Hv. apply Hq. by right.
Qed.

(** Lines 113-115. *)
Lemma crawl_inv_mark (base : str) (p : scraper) (u : str) :
  u ∉ urls_to_visit p → u ∉ visited_urls p → crawl_inv w base p →
  crawl_inv w base
    (emit Sleep
       (set_visited_urls ({[u]} ∪ visited_urls (emit (Print_scraping u) p))
          (emit (Print_scraping u) p))).
Proof.
  intros Hnq Hnv (Hb & [Hd Hnd] & Hs & Hsv & Hq).
  unfold crawl_inv, frontier_ok, scraped_urls; simpl.
  rewrite !omap_app; simpl. rewrite app_nil_r.
  split_and!; try done.
  - intros v Hv [Hv' | Hv']%elem_of_union.
    + apply elem_of_singleton in Hv'. by subst.
    + by apply (Hd v).
  - apply NoDup_app. split_and!; [done | | apply NoDup_singleton].
    intros v Hv Hv'. apply list_elem_of_singleton in Hv'. subst.
    by apply Hnv, Hsv.
  - intros v [Hv | Hv]%elem_of_app.
    + apply elem_of_union. right. by apply Hsv.
    + apply list_elem_of_singleton in Hv. subst. set_solver.
Qed.

(** ** [extract_links] *)

Lemma extract_links_inv (base : str) (hrefs : list str) (u : str) (p : scraper) :
  crawl_inv w base p →
  crawl_inv w base (extract_links w hrefs u p).2
  ∧ visited_urls (extract_links w hrefs u p).2 = visited_urls p
  ∧ events (extract_links w hrefs u p).2 = events p
  ∧ profiles (extract_links w hrefs u p).2 = profiles p.
Proof.
  revert p. induction hrefs as [|href rest IH]; intros p Hinv; [done|].
  simpl. destruct (urljoin w u href) as [a|]; [|done].
  destruct (admits w p a) eqn:Hadm.
  - destruct (IH (set_urls_to_visit (urls_to_visit p ++ [a]) p)) as (? & ? & ? & ?);
      [by apply crawl_inv_append|]. done.
  - by apply IH.
Qed.

Lemma links_points_inv (base : str) (hrefs : list str) (u : str) (p : scraper) :
  crawl_inv w base p →
  Forall (λ q, crawl_inv w base q ∧ visited_urls q = visited_urls p)
    (links_points w hrefs u p).
Proof.
  revert p. induction hrefs as [|href rest IH]; intros p Hinv; [constructor|].
  simpl. destruct (urljoin w u href) as [a|]; [|constructor].
  destruct (admits w p a) eqn:Hadm.
  - pose proof (crawl_inv_append _ _ _ Hadm Hinv) as Hinv'.
    constructor; [done|]. by apply (IH _ Hinv').
  - constructor; [done|]. by apply IH.
Qed.

(** When no link makes [urljoin] raise, [extract_links] finishes. *)
Lemma extract_links_finishes (hrefs : list str) (u : str) (p : scraper) :
  Forall (λ href, urljoin w u href ≠ None) hrefs →
  (extract_links w hrefs u p).1 = true.
Proof.
  intros Hjoin. revert p.
  induction Hjoin as [|href rest Hhref _ IH]; intros p; [done|].
  simpl. destruct (urljoin w u href); [apply IH | done].
Qed.

(** ** [extract_profiles_with_openai] and [scrape_page] *)

Lemma extract_profiles_object (p : scraper) (text : str) :
  (extract_profiles_with_openai w p text).2 = p
  ∨ (extract_profiles_with_openai w p text).2 = emit Print_error_openai p.
Proof.
  unfold extract_profiles_with_openai.
  destruct (chat_completion w (requests p) text) as [| |[]]; simpl; auto.
Qed.

Lemma extract_profiles_inv (base : str) (p : scraper) (text : str) :
  crawl_inv w base p →
  crawl_inv w base (extract_profiles_with_openai w p text).2
  ∧ visited_urls (extract_profiles_with_openai w p text).2 = visited_urls p
  ∧ urls_to_visit (extract_profiles_with_openai w p text).2 = urls_to_visit p
  ∧ profiles (extract_profiles_with_openai w p text).2 = profiles p
  ∧ saved_snapshots (events (extract_profiles_with_openai w p text).2)
    = saved_snapshots (events p).
Proof.
  intros Hinv.
  destruct (extract_profiles_object p text) as [-> | ->]; [done|].
  split_and!; try done.
  - by apply crawl_inv_emit.
  - unfold saved_snapshots; simpl. rewrite omap_app; simpl. by rewrite app_nil_r.
Qed.

Lemma saved_snapshots_emit (e : event) (p : scraper) :
  saved_snapshots (events (emit e p))
  = saved_snapshots (events p) ++ option_list (saved_snapshot e).
Proof.
  unfold saved_snapshots; simpl. rewrite omap_app; simpl.
  by destruct (saved_snapshot e).
Qed.

(** A line printed on the way out of [scrape_page]. *)
Lemma crawl_inv_error (base : str) (u : str) (p p0 : scraper) :
  crawl_inv w base p ∧ visited_urls p = visited_urls p0
  ∧ saved_snapshots (events p) = saved_snapshots (events p0) →
  crawl_inv w base (emit (Print_error_scraping u) p)
  ∧ visited_urls (emit (Print_error_scraping u) p) = visited_urls p0
  ∧ saved_snapshots (events (emit (Print_error_scraping u) p))
    = saved_snapshots (events p0).
Proof.
  intros (Hinv & Hv & Hs). split_and!; [by apply crawl_inv_emit | done |].
  by rewrite saved_snapshots_emit, app_nil_r.
Qed.

Lemma scrape_page_inv (base : str) (p : scraper) (u : str) :
  crawl_inv w base p →
  crawl_inv w base (scrape_page w p u).2
  ∧ visited_urls (scrape_page w p u).2 = visited_urls p
  ∧ saved_snapshots (events (scrape_page w p u).2) = saved_snapshots (events p).
Proof.
  intros Hinv. unfold scrape_page. cbv zeta.
  destruct (http_get w (requests p) u) as [| | |text hrefs];
    try (by apply crawl_inv_error).
  destruct (extract_profiles_inv base (count_request p) (clean_text text))
    as (Hinv1 & Hv1 & Hq1 & Hp1 & Hs1); [done|].
  destruct (extract_profiles_with_openai w (count_request p) (clean_text text))
    as [x p1]; simpl in Hinv1, Hv1, Hq1, Hp1, Hs1.
  destruct (list_extend (profiles p1) x) as [extended|];
    [|by apply crawl_inv_error].
  destruct (extract_links_inv base hrefs u (set_profiles extended p1))
    as (Hinv2 & Hv2 & He2 & Hp2); [done|].
  destruct (extract_links w hrefs u (set_profiles extended p1)) as [b p2];
    simpl in Hinv2, Hv2, He2, Hp2.
  assert (Hp2' : crawl_inv w base p2 ∧ visited_urls p2 = visited_urls p
                 ∧ saved_snapshots (events p2) = saved_snapshots (events p)).
  { split_and!; [done | by rewrite Hv2 | by rewrite He2]. }
  destruct b; [done | by apply crawl_inv_error].
Qed.

Lemma page_points_inv (base : str) (p : scraper) (u : str) :
  crawl_inv w base p →
  Forall (λ q, crawl_inv w base q ∧ visited_urls q = visited_urls p)
    (page_points w p u).
Proof.
  intros Hinv. unfold page_points.
  destruct (http_get w (requests p) u) as [| | |text hrefs]; try constructor.
  destruct (extract_profiles_inv base (count_request p) (clean_text text))
    as (Hinv1 & Hv1 & _); [done|].
  destruct (extract_profiles_with_openai w (count_request p) (clean_text text))
    as [x p1]; simpl in *.
  destruct (list_extend (profiles p1) x) as [extended|]; [|constructor].
  constructor; [done|].
  eapply Forall_impl; [by apply (links_points_inv base)|].
  simpl. intros q [? ?]. split; [done | congruence].
Qed.

(** ** One turn of the loop *)

(** The turn that skips a URL already visited (lines 110-111). *)
Lemma loop_body_skip (self : scraper) (n : Z) (u : str) (rest : list str) :
  urls_to_visit self = u :: rest → u ∈ visited_urls self →
  loop_body w (self, n) = (set_urls_to_visit rest self, n).
Proof.
  intros Hq Hu. unfold loop_body. cbv beta iota. rewrite Hq. simpl.
  by rewrite bool_decide_eq_true_2.
Qed.

(** The turn that scrapes a page (lines 113-122). *)
Lemma loop_body_visit (self : scraper) (n : Z) (u : str) (rest : list str) :
  urls_to_visit self = u :: rest → u ∉ visited_urls self →
  let r := scrape_page w (visit u (set_urls_to_visit rest self)) u in
  let n' := if r.1 then (n + 1)%Z else n in
  let s := if r.1 then emit (Print_pages_scraped (n + 1)) r.2 else r.2 in
  loop_body w (self, n) = (if (n' mod 10 =? 0)%Z then save_data s else s, n').
Proof.
  intros Hq Hu. unfold loop_body. cbv beta iota zeta. rewrite Hq.
  cbv beta iota zeta.
  rewrite bool_decide_eq_false_2 by done.
  change (emit Sleep _) with (visit u (set_urls_to_visit rest self)).
  destruct (scrape_page w (visit u (set_urls_to_visit rest self)) u) as [[] s];
    simpl.
  - by destruct ((n + 1) mod 10 =? 0)%Z.
  - by destruct (n mod 10 =? 0)%Z.
Qed.

Lemma visited_kept_refl (p : scraper) : visited_kept p p.
Proof. unfold visited_kept. done. Qed.

Lemma visited_kept_trans (p q r : scraper) :
  visited_kept p q → visited_kept q r → visited_kept p r.
Proof. unfold visited_kept. set_solver. Qed.

Lemma crawl_inv_save (base : str) (p : scraper) :
  crawl_inv w base p → crawl_inv w base (save_data p).
Proof. by apply crawl_inv_emit. Qed.

Lemma loop_body_inv (base : str) (st : loop_state) :
  crawl_inv w base st.1 →
  crawl_inv w base (loop_body w st).1 ∧ visited_kept st.1 (loop_body w st).1.
Proof.
  destruct st as [self n]. cbn [fst]. intros Hinv.
  destruct (urls_to_visit self) as [|u rest] eqn:Hq.
  { unfold loop_body. cbv beta iota. rewrite Hq.
    split; [done | apply visited_kept_refl]. }
  destruct (crawl_inv_popleft base _ _ _ Hq Hinv) as (Hinv1 & Hrest & Hu).
  rewrite (loop_body_visit _ _ _ _ Hq Hu). cbv zeta.
  pose proof (crawl_inv_mark base (set_urls_to_visit rest self) u Hrest Hu Hinv1)
    as Hinv2.
  change (emit Sleep _) with (visit u (set_urls_to_visit rest self)) in Hinv2.
  destruct (scrape_page_inv base _ u Hinv2) as (Hinv3 & Hv3 & _).
  assert (Hkept : visited_kept self
            (scrape_page w (visit u (set_urls_to_visit rest self)) u).2).
  { unfold visited_kept. rewrite Hv3. simpl.
    intros v Hv. apply elem_of_union. by right. }
  destruct (scrape_page w (visit u (set_urls_to_visit rest self)) u) as [[] s];
    simpl in *.
  - destruct ((n + 1) mod 10 =? 0)%Z; simpl;
      (split; [|done]); repeat (apply crawl_inv_emit; [done|]); done.
  - destruct (n mod 10 =? 0)%Z; simpl;
      (split; [|done]); repeat (apply crawl_inv_emit; [done|]); done.
Qed.

(** ** The points of a run *)

Lemma StronglySorted_lookup_le {A : Type} (R : relation A)
    (HR : ∀ x, R x x) (l : list A) (i j : nat) (x y : A) :
  StronglySorted R l → i ≤ j → l !! i = Some x → l !! j = Some y → R x y.
Proof.
  intros Hl. revert i j. induction Hl as [|z l Hl IH Hz]; intros i j Hij Hi Hj.
  { by rewrite lookup_nil in Hi. }
  destruct i as [|i], j as [|j]; simpl in *; simplify_eq; try lia.
  - apply HR.
  - eapply (proj1 (Forall_forall _ _) Hz), list_elem_of_lookup_2, Hj.
  - eapply IH; [|done..]. lia.
Qed.

Lemma StronglySorted_same_visited (V : gset (list N)) (l : list scraper) :
  Forall (λ q, visited_urls q = V) l → StronglySorted visited_kept l.
Proof.
  induction 1 as [|q l Hq Hl IH]; constructor; [done|].
  eapply Forall_impl; [exact Hl|].
  intros r Hr. unfold visited_kept. by rewrite Hq, Hr.
Qed.

(** The points inside a turn keep the invariant, and the visited set
    only grows from one to the next, up to the next loop state. *)
Lemma turn_points_inv (base : str) (st : loop_state) :
  crawl_inv w base st.1 →
  Forall (λ q, crawl_inv w base q ∧ visited_kept st.1 q
               ∧ visited_kept q (loop_body w st).1) (turn_points w st)
  ∧ StronglySorted visited_kept (turn_points w st).
Proof.
  destruct st as [self n]. cbn [fst]. intros Hinv.
  unfold turn_points. cbv beta iota.
  destruct (urls_to_visit self) as [|u rest] eqn:Hq.
  { split; constructor. }
  destruct (crawl_inv_popleft base _ _ _ Hq Hinv) as (Hinv1 & Hrest & Hu).
  cbv zeta. rewrite bool_decide_eq_false_2 by done.
  change (emit Sleep _) with (visit u (set_urls_to_visit rest self)).
  pose proof (crawl_inv_mark base (set_urls_to_visit rest self) u Hrest Hu Hinv1)
    as Hinv2.
  change (emit Sleep _) with (visit u (set_urls_to_visit rest self)) in Hinv2.
  pose proof (page_points_inv base _ u Hinv2) as Hpage.
  (* the visited set at the end of the turn *)
  assert (Hend : visited_urls (loop_body w (self, n)).1
                 = visited_urls (visit u (set_urls_to_visit rest self))).
  { rewrite (loop_body_visit _ _ _ _ Hq Hu). cbv zeta.
    destruct (scrape_page_inv base _ u Hinv2) as (_ & Hv & _).
    destruct (scrape_page w (visit u (set_urls_to_visit rest self)) u)
      as [[] s]; simpl in Hv |- *.
    - by destruct ((n + 1) mod 10 =? 0)%Z.
    - by destruct (n mod 10 =? 0)%Z. }
  assert (Hgrow : visited_urls self ⊆
                  visited_urls (visit u (set_urls_to_visit rest self))).
  { simpl. intros v Hv. apply elem_of_union. by right. }
  split.
  - apply Forall_cons. split.
    { unfold visited_kept. rewrite Hend. split_and!; [done | done | exact Hgrow]. }
    apply Forall_cons. split.
    { unfold visited_kept. rewrite Hend. split_and!; [done | exact Hgrow | done]. }
    eapply Forall_impl; [exact Hpage|].
    intros q [Hq1 Hq2]. unfold visited_kept. rewrite Hend, Hq2.
    split_and!; [done | exact Hgrow | done].
  - constructor; [constructor|].
    + apply (StronglySorted_same_visited
               (visited_urls (visit u (set_urls_to_visit rest self)))).
      eapply Forall_impl; [exact Hpage|]. by intros q [_ ?].
    + eapply Forall_impl; [exact Hpage|].
      intros q [_ Hq2]. unfold visited_kept. by rewrite Hq2.
    + constructor; [done|].
      eapply Forall_impl; [exact Hpage|].
      intros q [_ Hq2]. unfold visited_kept. by rewrite Hq2.
Qed.

Lemma crawl_trace_inv (base : str) (max_pages : Z) (fuel : nat)
    (st : loop_state) :
  crawl_inv w base st.1 →
  Forall (λ q, crawl_inv w base q ∧ visited_kept st.1 q)
    (crawl_trace w max_pages fuel st)
  ∧ StronglySorted visited_kept (crawl_trace w max_pages fuel st).
Proof.
  revert st. induction fuel as [|fuel IH]; intros st Hinv.
  all: assert (Hone : Forall (λ q, crawl_inv w base q ∧ visited_kept st.1 q)
                        [st.1] ∧ StronglySorted visited_kept [st.1]).
  1, 3: split; [apply Forall_singleton; split; [done | apply visited_kept_refl]
               | constructor; constructor].
  { exact Hone. }
  cbn [crawl_trace].
  destruct (loop_cond max_pages st); [|exact Hone].
  destruct (loop_body_inv base st Hinv) as [Hinv' Hkept].
  destruct (IH _ Hinv') as [Hall Hsorted].
  destruct (turn_points_inv base st Hinv) as [Hturn Hturn_sorted].
  assert (Htail : Forall (λ q, crawl_inv w base q ∧ visited_kept st.1 q)
            (turn_points w st ++ crawl_trace w max_pages fuel (loop_body w st))).
  { apply Forall_app. split.
    - eapply Forall_impl; [exact Hturn|]. by intros q (? & ? & _).
    - eapply Forall_impl; [exact Hall|]. intros q [? ?].
      split; [done | by eapply visited_kept_trans]. }
  split.
  - constructor; [split; [done | apply visited_kept_refl] | exact Htail].
  - constructor.
    + apply StronglySorted_app_2; [|done..].
      intros p q Hp Hq.
      apply (proj1 (Forall_forall _ _) Hturn) in Hp as (_ & _ & Hp).
      apply (proj1 (Forall_forall _ _) Hall) in Hq as [_ Hq].
      by eapply visited_kept_trans.
    + eapply Forall_impl; [exact Htail|]. by intros q [_ ?].
Qed.

Lemma crawl_inv_new (base : str) : crawl_inv w base (new_scraper base).
Proof.
  unfold crawl_inv, frontier_ok; simpl. split_and!.
  - done.
  - intros u Hu. by apply elem_of_nil in Hu.
  - constructor.
  - constructor.
  - intros u Hu. by apply elem_of_nil in Hu.
  - intros u Hu. by apply elem_of_nil in Hu.
Qed.

Lemma run_trace_inv (base : str) (max_pages : Z) (fuel : nat) :
  Forall (crawl_inv w base) (run_trace w max_pages fuel base)
  ∧ StronglySorted visited_kept (run_trace w max_pages fuel base).
Proof.
  destruct (crawl_trace_inv base max_pages fuel (loop_entry (new_scraper base))
              (crawl_inv_entry base)) as [Hall Hsorted].
  unfold run_trace. split.
  - constructor; [apply crawl_inv_new|].
    eapply Forall_impl; [exact Hall|]. by intros q [? _].
  - constructor; [done|].
    eapply Forall_impl; [exact Hall|]. by intros q [_ ?].
Qed.

(** The last point of the trace is the state in which the loop ends. *)
Lemma crawl_trace_last (max_pages : Z) (fuel : nat) (st final : loop_state) :
  scrape_website_loop w max_pages fuel st = Some final →
  last (crawl_trace w max_pages fuel st) = Some final.1.
Proof.
  revert st. induction fuel as [|fuel IH]; intros st; simpl.
  - destruct (loop_cond max_pages st); [done|]. by intros [= ->].
  - destruct (loop_cond max_pages st); [|by intros [= ->]].
    intros Hrun. specialize (IH _ Hrun).
    destruct (crawl_trace w max_pages fuel (loop_body w st)) as [|q l] eqn:Htr;
      [done|].
    rewrite app_comm_cons, last_app. by rewrite IH.
Qed.

(** The last point of [links_points] is the object that [extract_links]
    returns. *)
Lemma links_points_last (hrefs : list str) (u : str) (p : scraper) :
  last (p :: links_points w hrefs u p) = Some (extract_links w hrefs u p).2.
Proof.
  revert p. induction hrefs as [|href rest IH]; intros p; [done|].
  cbn [links_points extract_links].
  destruct (urljoin w u href) as [a|]; [|done].
  cbv zeta. rewrite <- IH. by destruct (admits w p a).
Qed.

(** The last point of [page_points] has the frontier and the profiles of
    the object that [scrape_page] returns. *)
Lemma page_points_last (p : scraper) (u : str) :
  ∃ q, last (p :: page_points w p u) = Some q
       ∧ urls_to_visit q = urls_to_visit (scrape_page w p u).2
       ∧ visited_urls q = visited_urls (scrape_page w p u).2
       ∧ profiles q = profiles (scrape_page w p u).2.
Proof.
  unfold page_points, scrape_page. cbv zeta.
  destruct (http_get w (requests p) u) as [| | |text hrefs];
    try (by exists p).
  pose proof (extract_profiles_object (count_request p) (clean_text text)) as Hobj.
  destruct (extract_profiles_with_openai w (count_request p) (clean_text text))
    as [x p1]; cbn [fst snd] in Hobj.
  destruct (list_extend (profiles p1) x) as [extended|].
  - exists (extract_links w hrefs u (set_profiles extended p1)).2.
    split.
    + change (last (p :: ?l)) with (last l). apply links_points_last.
    + by destruct (extract_links w hrefs u (set_profiles extended p1)) as [[] p2].
  - exists p. by destruct Hobj as [-> | ->].
Qed.

(** The last point inside a turn has the frontier and the profiles of
    the loop state that follows. *)
Lemma turn_points_last (max_pages : Z) (st : loop_state) :
  loop_cond max_pages st = true →
  ∃ q, last (turn_points w st) = Some q
       ∧ urls_to_visit q = urls_to_visit (loop_body w st).1
       ∧ visited_urls q = visited_urls (loop_body w st).1
       ∧ profiles q = profiles (loop_body w st).1.
Proof.
  destruct st as [self n]. unfold loop_cond. cbn [fst snd]. intros Hcond.
  destruct (urls_to_visit self) as [|u rest] eqn:Hq; [done|].
  destruct (decide (u ∈ visited_urls self)) as [Hu | Hu].
  { rewrite (loop_body_skip _ _ _ _ Hq Hu).
    unfold turn_points. cbv beta iota. rewrite Hq. cbv beta iota zeta.
    rewrite bool_decide_eq_true_2 by done. by eexists. }
  rewrite (loop_body_visit _ _ _ _ Hq Hu). cbv zeta.
  unfold turn_points. cbv beta iota. rewrite Hq. cbv beta iota zeta.
  rewrite bool_decide_eq_false_2 by done.
  change (emit Sleep _) with (visit u (set_urls_to_visit rest self)).
  destruct (page_points_last (visit u (set_urls_to_visit rest self)) u)
    as (q & Hlast & Hqq & Hqv & Hqp).
  exists q. split; [exact Hlast|].
  destruct (scrape_page w (visit u (set_urls_to_visit rest self)) u) as [[] s];
    cbn [fst snd] in *.
  - by destruct ((n + 1) mod 10 =? 0)%Z.
  - by destruct (n mod 10 =? 0)%Z.
Qed.

Lemma run_trace_point (base : str) (max_pages : Z) (fuel i : nat) (p : scraper) :
  run_trace w max_pages fuel base !! i = Some p → crawl_inv w base p.
Proof.
  intros Hp. destruct (run_trace_inv base max_pages fuel) as [Hall _].
  eapply (proj1 (Forall_forall _ _) Hall), list_elem_of_lookup_2, Hp.
Qed.

Lemma reachable_inv (base : str) (max_pages : Z) (st : loop_state) :
  reachable w max_pages base st → crawl_inv w base st.1.
Proof.
  unfold reachable. revert st.
  apply (rtc_ind_r (λ st, crawl_inv w base st.1)); [apply crawl_inv_entry|].
  intros st st' _ [_ ->] IH. by apply loop_body_inv.
Qed.

Lemma is_valid_url_base (p q : scraper) (url : str) :
  base_url p = base_url q → is_valid_url w p url = is_valid_url w q url.
Proof. unfold is_valid_url. by intros ->. Qed.

(** ** The frontier *)

(** C1: take two points [p] and [q] of a run, [p] first.  At [p] no URL
    is both in the visited set and in the queue; a URL visited at [p] is
    still visited at [q] and is not in the queue at [q]; and up to [q] no
    URL was handed to [scrape_page] twice (nor is any URL queued twice). *)
Theorem visited_pending_disjoint (max_pages : Z) (base : str) (fuel i j : nat)
    (p q : scraper) :
  i ≤ j →
  run_trace w max_pages fuel base !! i = Some p →
  run_trace w max_pages fuel base !! j = Some q →
  (∀ u, ¬ (u ∈ visited_urls p ∧ u ∈ urls_to_visit p))
  ∧ (∀ u, u ∈ visited_urls p → u ∈ visited_urls q ∧ (u ∉ urls_to_visit q))
  ∧ NoDup (scraped_urls (events q))
  ∧ NoDup (urls_to_visit q).
Proof.
  intros Hij Hp Hq.
  destruct (run_trace_point _ _ _ _ _ Hp) as (_ & [Hdp _] & _).
  destruct (run_trace_point _ _ _ _ _ Hq) as (_ & [Hdq Hndq] & Hsq & _).
  destruct (run_trace_inv base max_pages fuel) as [_ Hsorted].
  assert (Hkept : visited_kept p q).
  { eapply (StronglySorted_lookup_le visited_kept visited_kept_refl);
      [exact Hsorted|done..]. }
  split_and!; [| |done..].
  - intros u [Hv Hu]. by apply (Hdp u).
  - intros u Hu. apply Hkept in Hu. split; [done|].
    intros Hu'. by apply (Hdq u).
Qed.

(** C6 (as amended): at every point of a run, a URL that
    [is_valid_url] rejects and that is not the base URL is not in the
    queue. *)
Theorem rejected_url_never_queued (max_pages : Z) (base : str) (fuel i : nat)
    (p : scraper) (u : str) :
  run_trace w max_pages fuel base !! i = Some p →
  u ≠ base →
  is_valid_url w (new_scraper base) u = false →
  u ∉ urls_to_visit p.
Proof.
  intros Hp Hne Hrej Hu.
  destruct (run_trace_point _ _ _ _ _ Hp) as (Hb & _ & _ & _ & Hq).
  destruct (Hq u Hu) as [-> | Hvalid]; [done|].
  rewrite (is_valid_url_base p (new_scraper base)) in Hvalid by done.
  congruence.
Qed.

(** ** The admission check *)

(** C7: [is_valid_url] answers [True] only when both URLs parse, the
    network location of the URL is the one of the base URL and the scheme
    is [http] or [https]; when [urlparse] raises on the URL it answers
    [False]. *)
Theorem is_valid_url_sound (self : scraper) (url : str) :
  (is_valid_url w self url = true →
   ∃ parsed_base parsed,
     urlparse w (base_url self) = Some parsed_base
     ∧ urlparse w url = Some parsed
     ∧ netloc parsed = netloc parsed_base
     ∧ (scheme parsed = py "http" ∨ scheme parsed = py "https"))
  ∧ (urlparse w url = None → is_valid_url w self url = false).
Proof.
  unfold is_valid_url. split.
  - destruct (urlparse w (base_url self)) as [parsed_base|]; [|done].
    destruct (urlparse w url) as [parsed|]; [|done].
    intros [Hnet Hscheme]%andb_true_iff.
    apply bool_decide_eq_true in Hnet, Hscheme.
    exists parsed_base, parsed. split_and!; try done.
    apply elem_of_cons in Hscheme as [? | Hscheme]; [by left|].
    apply list_elem_of_singleton in Hscheme. by right.
  - intros ->. by destruct (urlparse w (base_url self)).
Qed.

(** ** The extraction call *)

(** C8 (as amended): when the API call raises, or the answer is not
    JSON, or it decodes to something that is not an object, or to an
    object without the key [profiles], the extraction call returns the
    empty list, [extend] adds no record, and nothing is raised; in all
    those cases but the last a line is printed.  An object with the key
    [profiles] gives the value under that key, as it is. *)
Theorem extraction_failure_gives_no_profile (self : scraper) (text : str) :
  let answer := chat_completion w (requests self) text in
  let result := extract_profiles_with_openai w self text in
  ((answer = Api_raises ∨ answer = Loads_raises
    ∨ ∃ v, answer = Decoded v ∧ ∀ members, v ≠ JObj members) →
   result = (JArr [], emit Print_error_openai self)
   ∧ list_extend (profiles self) result.1 = Some (profiles self))
  ∧ (∀ members, answer = Decoded (JObj members) →
     dict_get (py "profiles") members = None →
     result = (JArr [], self)
     ∧ list_extend (profiles self) result.1 = Some (profiles self))
  ∧ (∀ members v, answer = Decoded (JObj members) →
     dict_get (py "profiles") members = Some v →
     result = (v, self)).
Proof.
  cbv zeta. unfold extract_profiles_with_openai. split_and!.
  - intros [-> | [-> | (v & -> & Hv)]]; simpl; rewrite ?app_nil_r; try done.
    destruct v; simpl; rewrite ?app_nil_r; try done.
    by destruct (Hv members).
  - intros members -> ->. simpl. by rewrite app_nil_r.
  - by intros members v -> ->.
Qed.

(** ** Failed pages *)

(** After a pass of [extract_links] over all the links, the queue holds
    what it held and the admitted, unvisited links of the page. *)
Lemma extract_links_members (hrefs : list str) (u : str) (p : scraper) :
  (extract_links w hrefs u p).1 = true →
  ∀ v, v ∈ urls_to_visit (extract_links w hrefs u p).2 ↔
       v ∈ urls_to_visit p
       ∨ ∃ href, href ∈ hrefs ∧ urljoin w u href = Some v
                 ∧ is_valid_url w p v = true ∧ (v ∉ visited_urls p).
Proof.
  revert p. induction hrefs as [|href rest IH]; intros p Hfin v.
  { simpl. split; [by left|]. intros [? | (href & Hin & _)]; [done|].
    by apply elem_of_nil in Hin. }
  simpl in Hfin |- *. destruct (urljoin w u href) as [a|] eqn:Hjoin; [|done].
  rewrite (IH _ Hfin v). clear IH Hfin.
  destruct (admits w p a) eqn:Hadm.
  - apply admits_true in Hadm as (Hvalid & Hnv & Hnq). simpl.
    rewrite elem_of_app, list_elem_of_singleton. split.
    + intros [[Hq | ->] | (h & Hin & Hj & Hval & Hvis)].
      * by left.
      * right. exists href. split_and!; [left | done..].
      * right. exists h. split_and!; [by right | done..].
    + intros [Hq | (h & Hin & Hj & Hval & Hvis)]; [by left; left|].
      apply elem_of_cons in Hin as [-> | Hin].
      * left. right. congruence.
      * right. by exists h.
  - split.
    + intros [Hq | (h & Hin & Hj & Hval & Hvis)]; [by left|].
      right. exists h. split_and!; [by right | done..].
    + intros [Hq | (h & Hin & Hj & Hval & Hvis)]; [by left|].
      apply elem_of_cons in Hin as [-> | Hin]; [|right; by exists h].
      left. rewrite Hjoin in Hj. injection Hj as ->.
      destruct (decide (v ∈ urls_to_visit p)) as [|Hnq]; [done|].
      assert (admits w p v = true) by (by apply admits_true). congruence.
Qed.

Lemma extract_links_keeps (hrefs : list str) (u : str) (p : scraper) :
  visited_urls (extract_links w hrefs u p).2 = visited_urls p
  ∧ profiles (extract_links w hrefs u p).2 = profiles p.
Proof.
  revert p. induction hrefs as [|href rest IH]; intros p; [done|].
  simpl. destruct (urljoin w u href) as [a|]; [|done].
  destruct (admits w p a); [|apply IH].
  by destruct (IH (set_urls_to_visit (urls_to_visit p ++ [a]) p)) as [-> ->].
Qed.

(** C2 (as amended).  Take the turn that scrapes the URL [u] at the head
    of the queue.

    When the request fails ([requests.get] raises, the status is an
    error, or the parser raises), [scrape_page] returns [False]; the turn
    adds no profile and no URL to the queue, the URL is visited
    afterwards, the counter is unchanged, and the loop goes on from the
    rest of the queue.

    When the page is fetched and parsed and the extraction call fails
    (the API call raises, the answer is not JSON, or it is not a JSON
    object), the turn adds no profile and the URL is visited afterwards;
    and provided [urljoin] raises on no link of the page, [scrape_page]
    returns [True], the counter grows by one, the queue afterwards holds
    the rest of the queue and the links of the page that are admitted, not
    visited and not [u] itself, and the loop goes on. *)
Theorem failed_fetch_is_skipped (max_pages : Z) (self : scraper) (n : Z)
    (u : str) (rest : list str) :
  urls_to_visit self = u :: rest →
  u ∉ visited_urls self →
  (n < max_pages)%Z →
  ((http_get w (requests self) u = Get_raises
    ∨ http_get w (requests self) u = Status_raises
    ∨ http_get w (requests self) u = Parser_raises) →
   (scrape_page w (visit u (set_urls_to_visit rest self)) u).1 = false
   ∧ profiles (loop_body w (self, n)).1 = profiles self
   ∧ urls_to_visit (loop_body w (self, n)).1 = rest
   ∧ u ∈ visited_urls (loop_body w (self, n)).1
   ∧ (loop_body w (self, n)).2 = n
   ∧ ∀ fuel,
       scrape_website_loop w max_pages (S fuel) (self, n)
       = scrape_website_loop w max_pages fuel (loop_body w (self, n)))
  ∧ (∀ text hrefs,
       http_get w (requests self) u = Page text hrefs →
       (chat_completion w (S (requests self)) (clean_text text) = Api_raises
        ∨ chat_completion w (S (requests self)) (clean_text text) = Loads_raises
        ∨ ∃ v, chat_completion w (S (requests self)) (clean_text text)
               = Decoded v ∧ ∀ members, v ≠ JObj members) →
       profiles (loop_body w (self, n)).1 = profiles self
       ∧ u ∈ visited_urls (loop_body w (self, n)).1
       ∧ (Forall (λ href, urljoin w u href ≠ None) hrefs →
          (scrape_page w (visit u (set_urls_to_visit rest self)) u).1 = true
          ∧ (loop_body w (self, n)).2 = (n + 1)%Z
          ∧ (∀ v, v ∈ urls_to_visit (loop_body w (self, n)).1 ↔
                  v ∈ rest
                  ∨ ∃ href, href ∈ hrefs ∧ urljoin w u href = Some v
                            ∧ is_valid_url w self v = true
                            ∧ (v ∉ visited_urls self) ∧ v ≠ u)
          ∧ ∀ fuel,
              scrape_website_loop w max_pages (S fuel) (self, n)
              = scrape_website_loop w max_pages fuel (loop_body w (self, n)))).
Proof.
  intros Hq Hu Hn.
  assert (Hgoes : ∀ fuel,
            scrape_website_loop w max_pages (S fuel) (self, n)
            = scrape_website_loop w max_pages fuel (loop_body w (self, n))).
  { intros fuel. cbn [scrape_website_loop].
    unfold loop_cond at 1. cbn [fst snd]. rewrite Hq.
    apply Z.ltb_lt in Hn. by rewrite Hn. }
  split.
  - intros Hfail.
    assert (Hpage : scrape_page w (visit u (set_urls_to_visit rest self)) u
                    = (false, emit (Print_error_scraping u)
                                (count_request (visit u (set_urls_to_visit rest self))))).
    { unfold scrape_page. cbv zeta.
      change (requests (visit u (set_urls_to_visit rest self))) with (requests self).
      by destruct Hfail as [-> | [-> | ->]]. }
    split_and!; [by rewrite Hpage | | | | | exact Hgoes];
      rewrite (loop_body_visit _ _ _ _ Hq Hu); cbv zeta; rewrite Hpage;
      cbn [fst snd]; try (by destruct (n mod 10 =? 0)%Z).
    destruct (n mod 10 =? 0)%Z; simpl; apply elem_of_union; left;
      by apply elem_of_singleton.
  - intros text hrefs Hget Hanswer.
    set (p := visit u (set_urls_to_visit rest self)).
    set (q := set_profiles (profiles self ++ [])
                (emit Print_error_openai (count_request p))).
    assert (Hpage : scrape_page w p u
                    = (let r := extract_links w hrefs u q in
                       if r.1 then (true, r.2)
                       else (false, emit (Print_error_scraping u) r.2))).
    { unfold scrape_page. cbv zeta.
      change (requests p) with (requests self). rewrite Hget.
      unfold extract_profiles_with_openai.
      change (requests (count_request p)) with (S (requests self)).
      assert (Hx : match chat_completion w (S (requests self)) (clean_text text) with
                   | Decoded (JObj members) =>
                       (default (JArr []) (dict_get (py "profiles") members),
                        count_request p)
                   | _ => (JArr [], emit Print_error_openai (count_request p))
                   end = (JArr [], emit Print_error_openai (count_request p))).
      { destruct Hanswer as [-> | [-> | (v & -> & Hv)]]; [done | done |].
        destruct v; try done. by destruct (Hv members). }
      rewrite Hx. cbn [list_extend profiles emit count_request].
      change (profiles p) with (profiles self). fold q.
      by destruct (extract_links w hrefs u q) as [[] r]. }
    destruct (extract_links_keeps hrefs u q) as [Hv Hp].
    change (visited_urls q) with ({[u]} ∪ visited_urls self) in Hv.
    change (profiles q) with (profiles self ++ []) in Hp.
    rewrite app_nil_r in Hp.
    assert (Hmark : u ∈ ({[u]} ∪ visited_urls self : gset (list N))).
    { apply elem_of_union. left. by apply elem_of_singleton. }
    split_and!.
    + rewrite (loop_body_visit _ _ _ _ Hq Hu). cbv zeta. fold p.
      rewrite Hpage. cbv zeta.
      destruct (extract_links w hrefs u q) as [[] r]; cbn [fst snd] in *.
      * by destruct ((n + 1) mod 10 =? 0)%Z.
      * by destruct (n mod 10 =? 0)%Z.
    + rewrite (loop_body_visit _ _ _ _ Hq Hu). cbv zeta. fold p.
      rewrite Hpage. cbv zeta.
      destruct (extract_links w hrefs u q) as [[] r]; cbn [fst snd] in *.
      * destruct ((n + 1) mod 10 =? 0)%Z; simpl; by rewrite Hv.
      * destruct (n mod 10 =? 0)%Z; simpl; by rewrite Hv.
    + intros Hjoin.
      pose proof (extract_links_finishes hrefs u q Hjoin) as Hfin.
      pose proof (extract_links_members hrefs u q Hfin) as Hmem.
      assert (Hbody : loop_body w (self, n)
                = (if ((n + 1) mod 10 =? 0)%Z
                   then save_data (emit (Print_pages_scraped (n + 1))
                                     (extract_links w hrefs u q).2)
                   else emit (Print_pages_scraped (n + 1))
                          (extract_links w hrefs u q).2,
                   (n + 1)%Z)).
      { rewrite (loop_body_visit _ _ _ _ Hq Hu). cbv zeta. fold p.
        rewrite Hpage. cbv zeta. by rewrite Hfin. }
      split_and!; [| by rewrite Hbody | | exact Hgoes].
      { fold p. rewrite Hpage. cbv zeta. by rewrite Hfin. }
      intros v. rewrite Hbody. cbn [fst].
      assert (Hqueue : urls_to_visit
                (if ((n + 1) mod 10 =? 0)%Z
                 then save_data (emit (Print_pages_scraped (n + 1))
                                   (extract_links w hrefs u q).2)
                 else emit (Print_pages_scraped (n + 1))
                        (extract_links w hrefs u q).2)
              = urls_to_visit (extract_links w hrefs u q).2)
        by (by destruct ((n + 1) mod 10 =? 0)%Z).
      rewrite Hqueue, (Hmem v).
      change (urls_to_visit q) with rest.
      change (visited_urls q) with ({[u]} ∪ visited_urls self).
      split.
      * intros [? | (href & Hin & Hj & Hval & Hnv)]; [by left|].
        right. exists href. split_and!; try done.
        -- intros Hv'. apply Hnv, elem_of_union. by right.
        -- intros ->. done.
      * intros [? | (href & Hin & Hj & Hval & Hnv & Hne)]; [by left|].
        right. exists href. split_and!; try done.
        intros [Hv' | Hv']%elem_of_union; [|done].
        by apply elem_of_singleton in Hv'.
Qed.

(** ** Saving *)

(** C3: in a turn of the loop the counter grows by one exactly when
    [scrape_page] succeeds, and [save_data] is called at the end of the
    turn exactly when the counter is then a multiple of 10 (0 included);
    when the loop is over the profiles are saved once more. *)
Theorem save_every_tenth_page (max_pages : Z) (base : str) (st : loop_state) :
  reachable w max_pages base st →
  loop_cond max_pages st = true →
  (∃ u rest,
     urls_to_visit st.1 = u :: rest
     ∧ (loop_body w st).2 =
       (if (scrape_page w (visit u (set_urls_to_visit rest st.1)) u).1
        then st.2 + 1 else st.2)%Z)
  ∧ saved_snapshots (events (loop_body w st).1) =
    saved_snapshots (events st.1)
    ++ (if ((loop_body w st).2 mod 10 =? 0)%Z
        then [profiles (loop_body w st).1] else [])
  ∧ (∀ fuel final,
       scrape_website w max_pages fuel (new_scraper base) = Some final →
       ∃ evs, events final = evs ++ [Write_profiles (profiles final)]).
Proof.
  intros Hst Hcond. pose proof (reachable_inv _ _ _ Hst) as Hinv.
  destruct st as [self n]. cbn [fst snd] in *.
  unfold loop_cond in Hcond. cbn [fst snd] in Hcond.
  destruct (urls_to_visit self) as [|u rest] eqn:Hq; [done|].
  destruct (crawl_inv_popleft base _ _ _ Hq Hinv) as (Hinv1 & Hrest & Hu).
  pose proof (crawl_inv_mark base (set_urls_to_visit rest self) u Hrest Hu Hinv1)
    as Hinv2.
  change (emit Sleep _) with (visit u (set_urls_to_visit rest self)) in Hinv2.
  destruct (scrape_page_inv base _ u Hinv2) as (_ & _ & Hsaved).
  assert (Hvisit : saved_snapshots (events (visit u (set_urls_to_visit rest self)))
                   = saved_snapshots (events self)).
  { unfold visit. rewrite saved_snapshots_emit. simpl.
    unfold saved_snapshots. rewrite omap_app. simpl. by rewrite !app_nil_r. }
  rewrite Hvisit in Hsaved.
  rewrite (loop_body_visit _ _ _ _ Hq Hu). cbv zeta.
  split_and!.
  - exists u, rest. split; [done|].
    by destruct (scrape_page w (visit u (set_urls_to_visit rest self)) u)
      as [[] s].
  - destruct (scrape_page w (visit u (set_urls_to_visit rest self)) u)
      as [[] s]; cbn [fst snd] in *.
    + destruct ((n + 1) mod 10 =? 0)%Z; unfold save_data;
        rewrite !saved_snapshots_emit; simpl;
        by rewrite ?saved_snapshots_emit, ?app_nil_r, Hsaved.
    + destruct (n mod 10 =? 0)%Z; unfold save_data;
        rewrite ?saved_snapshots_emit; simpl; by rewrite ?app_nil_r, Hsaved.
  - intros fuel final. unfold scrape_website.
    destruct (scrape_website_loop _ _ _ _) as [[s' n']|]; [|done].
    intros [= <-]. by exists (events s').
Qed.

(** ** Termination *)

Lemma extract_links_queue_finished (hrefs : list str) (u : str) (p : scraper) :
  links_join w → ∀ n text, http_get w n u = Page text hrefs →
  (extract_links w hrefs u p).1 = true.
Proof.
  intros Hjoin n text Hget. apply extract_links_finishes. by eapply Hjoin.
Qed.

(** Where [urljoin] accepts every link, a page that fails leaves the
    queue as it was. *)
Lemma scrape_page_failure_queue (p : scraper) (u : str) :
  links_join w →
  (scrape_page w p u).1 = false →
  urls_to_visit (scrape_page w p u).2 = urls_to_visit p.
Proof.
  intros Hjoin. unfold scrape_page. cbv zeta.
  destruct (http_get w (requests p) u) as [| | |text hrefs] eqn:Hget; try done.
  pose proof (extract_profiles_object (count_request p) (clean_text text)) as Hobj.
  destruct (extract_profiles_with_openai w (count_request p) (clean_text text))
    as [x p1]; cbn [fst snd] in Hobj.
  assert (Hq : urls_to_visit p1 = urls_to_visit p) by (by destruct Hobj as [-> | ->]).
  destruct (list_extend (profiles p1) x) as [extended|]; [|done].
  pose proof (extract_links_queue_finished hrefs u (set_profiles extended p1)
                Hjoin _ _ Hget) as Hfin.
  destruct (extract_links w hrefs u (set_profiles extended p1)) as [b p2].
  cbn [fst] in Hfin. by rewrite Hfin.
Qed.

(** A turn either counts one more page, or leaves the counter and
    shortens the queue. *)
Lemma loop_body_progress (max_pages : Z) (st : loop_state) :
  links_join w → loop_cond max_pages st = true →
  (loop_body w st).2 = (st.2 + 1)%Z
  ∨ ((loop_body w st).2 = st.2
     ∧ length (urls_to_visit (loop_body w st).1) < length (urls_to_visit st.1)).
Proof.
  intros Hjoin Hcond. destruct st as [self n]. unfold loop_cond in Hcond.
  cbn [fst snd] in *.
  destruct (urls_to_visit self) as [|u rest] eqn:Hq; [done|].
  destruct (decide (u ∈ visited_urls self)) as [Hu | Hu].
  { rewrite (loop_body_skip _ _ _ _ Hq Hu). right. simpl. split; [done | lia]. }
  rewrite (loop_body_visit _ _ _ _ Hq Hu). cbv zeta.
  pose proof (scrape_page_failure_queue
                (visit u (set_urls_to_visit rest self)) u Hjoin) as Hfail.
  destruct (scrape_page w (visit u (set_urls_to_visit rest self)) u) as [[] s];
    cbn [fst snd] in *; [by left|].
  right. split; [done|]. specialize (Hfail eq_refl). simpl in Hfail.
  destruct (n mod 10 =? 0)%Z; simpl; rewrite Hfail; lia.
Qed.

Lemma scrape_website_loop_terminates (max_pages : Z) :
  links_join w →
  ∀ st, ∃ fuel final, scrape_website_loop w max_pages fuel st = Some final.
Proof.
  intros Hjoin st.
  remember (Z.to_nat (max_pages - st.2)) as k eqn:Hk.
  assert (Hk' : Z.to_nat (max_pages - st.2) ≤ k) by lia. clear Hk.
  revert st Hk'. induction k as [|k IHk]; intros st Hk.
  { exists 0, st. simpl. unfold loop_cond.
    destruct (urls_to_visit st.1); [done|].
    assert (Hge : (st.2 <? max_pages)%Z = false) by (apply Z.ltb_ge; lia).
    by rewrite Hge. }
  remember (length (urls_to_visit st.1)) as m eqn:Hm.
  assert (Hm' : length (urls_to_visit st.1) ≤ m) by lia. clear Hm.
  revert st Hk Hm'. induction m as [|m IHm]; intros st Hk Hm.
  { exists 0, st. simpl. unfold loop_cond.
    by destruct (urls_to_visit st.1); [|simpl in Hm; lia]. }
  destruct (loop_cond max_pages st) eqn:Hcond.
  2: { exists 0, st. simpl. by rewrite Hcond. }
  assert (Hlt : (st.2 < max_pages)%Z).
  { unfold loop_cond in Hcond. destruct (urls_to_visit st.1); [done|].
    by apply Z.ltb_lt. }
  destruct (loop_body_progress max_pages st Hjoin Hcond) as [Hn | [Hn Hlen]].
  - destruct (IHk (loop_body w st)) as (fuel & final & Hrun); [lia|].
    exists (S fuel), final. simpl. by rewrite Hcond.
  - destruct (IHm (loop_body w st)) as (fuel & final & Hrun); [lia | lia |].
    exists (S fuel), final. simpl. by rewrite Hcond.
Qed.

(** The loop is left only when its condition fails: the queue is empty
    or the counter has reached the maximum. *)
Lemma scrape_website_loop_exit (max_pages : Z) (fuel : nat)
    (st final : loop_state) :
  scrape_website_loop w max_pages fuel st = Some final →
  urls_to_visit final.1 = [] ∨ (max_pages ≤ final.2)%Z.
Proof.
  revert st. induction fuel as [|fuel IH]; intros st; simpl;
    destruct (loop_cond max_pages st) eqn:Hcond; try done; try apply IH.
  all: intros [= <-]; unfold loop_cond in Hcond;
    (destruct (urls_to_visit st.1); [by left|]);
    right; by apply Z.ltb_ge.
Qed.

(** X15: where [urljoin] accepts every link of every page, every run of
    [scrape_website] ends, whatever the requests and the model answer,
    with an empty queue or with the counter at the maximum. *)
Theorem scrape_website_terminates (max_pages : Z) (self : scraper) :
  links_join w →
  ∃ fuel final n,
    scrape_website_loop w max_pages fuel (loop_entry self) = Some (final, n)
    ∧ scrape_website w max_pages fuel self = Some (save_data final)
    ∧ (urls_to_visit final = [] ∨ (max_pages ≤ n)%Z).
Proof.
  intros Hjoin.
  destruct (scrape_website_loop_terminates max_pages Hjoin (loop_entry self))
    as (fuel & [s n] & Hrun).
  exists fuel, s, n. unfold scrape_website. rewrite Hrun.
  split_and!; [done | done |].
  apply (scrape_website_loop_exit _ _ _ _ Hrun).
Qed.

End Crawl.

(* ===================================================================== *)
(** * The endless site *)
(* ===================================================================== *)

Lemma urlsplit_example_com (tail : str) :
  urlsplit_ascii (py "http://example.com/" ++ tail)
  = Some (Parsed (py "http") (py "example.com")).
Proof. vm_compute. reflexivity. Qed.

Lemma urlsplit_open_bracket : urlsplit_ascii (py "//[") = None.
Proof. vm_compute. reflexivity. Qed.

Lemma endless_is_valid_url (self : scraper) (tail : str) :
  base_url self = py "http://example.com/" →
  is_valid_url endless_site self (py "http://example.com/" ++ tail) = true.
Proof.
  intros Hbase. unfold is_valid_url. rewrite Hbase.
  change (urlparse endless_site) with urlsplit_ascii.
  rewrite urlsplit_example_com.
  rewrite <- (app_nil_r (py "http://example.com/")) at 1.
  rewrite urlsplit_example_com. vm_compute. reflexivity.
Qed.

Lemma endless_extract_profiles (self : scraper) (text : str) :
  extract_profiles_with_openai endless_site self text = (JArr [], self).
Proof. unfold extract_profiles_with_openai. vm_compute. reflexivity. Qed.

(** On a page of the endless site the first link is queued and the
    second makes [urljoin] raise. *)
Lemma endless_extract_links (self : scraper) (tail : str) :
  let u := py "http://example.com/" ++ tail in
  admits endless_site self (u ++ py "a") = true →
  extract_links endless_site [u ++ py "a"; py "//["] u self
  = (false, set_urls_to_visit (urls_to_visit self ++ [u ++ py "a"]) self).
Proof.
  intros u Hadm. cbn [extract_links].
  change (urljoin endless_site) with urljoin_absolute.
  unfold urljoin_absolute. subst u.
  rewrite <- app_assoc, urlsplit_example_com, app_assoc.
  rewrite Hadm. by rewrite urlsplit_open_bracket.
Qed.

(** One turn on the endless site: the page fails, the counter stays at
    0, and the queue holds the next URL, longer than every visited one. *)
Lemma endless_turn (self : scraper) (tail : str) :
  base_url self = py "http://example.com/" →
  urls_to_visit self = [py "http://example.com/" ++ tail] →
  (∀ v, v ∈ visited_urls self →
        length v < length (py "http://example.com/" ++ tail)) →
  ∃ self',
    loop_body endless_site (self, 0%Z) = (self', 0%Z)
    ∧ base_url self' = py "http://example.com/"
    ∧ urls_to_visit self' = [py "http://example.com/" ++ (tail ++ py "a")]
    ∧ (∀ v, v ∈ visited_urls self' →
            length v < length (py "http://example.com/" ++ (tail ++ py "a"))).
Proof.
  intros Hbase Hq Hshort.
  set (u := py "http://example.com/" ++ tail) in *.
  assert (Hu : u ∉ visited_urls self).
  { intros Hu. apply Hshort in Hu. lia. }
  assert (Hlen : length (u ++ py "a") = S (length u)).
  { rewrite length_app. simpl. lia. }
  set (marked := visit u (set_urls_to_visit [] self)).
  assert (Hadm : ∀ p, base_url p = base_url self →
                      visited_urls p = visited_urls marked →
                      urls_to_visit p = [] →
                      admits endless_site p (u ++ py "a") = true).
  { intros p Hpb Hpv Hpq. apply admits_true. split_and!.
    - unfold u. rewrite <- app_assoc. apply endless_is_valid_url. congruence.
    - rewrite Hpv.
      change (visited_urls marked) with ({[u]} ∪ visited_urls self).
      intros [Hv | Hv]%elem_of_union.
      + apply elem_of_singleton in Hv. apply (f_equal length) in Hv. lia.
      + apply Hshort in Hv. lia.
    - rewrite Hpq. apply not_elem_of_nil. }
  assert (Hpage : scrape_page endless_site marked u
                  = (false,
                     emit (Print_error_scraping u)
                       (set_urls_to_visit [u ++ py "a"]
                          (set_profiles (profiles self ++ [])
                             (count_request marked))))).
  { unfold scrape_page. cbv zeta.
    change (http_get endless_site (requests marked) u)
      with (Page [] [u ++ py "a"; py "//["]).
    cbv beta iota. rewrite endless_extract_profiles. cbv beta iota.
    change (list_extend (profiles (count_request marked)) (JArr []))
      with (Some (profiles self ++ [])).
    cbv beta iota. unfold u at 1 2 3. rewrite endless_extract_links; [done|].
    by apply Hadm. }
  eexists. split.
  { rewrite (loop_body_visit _ _ _ _ _ Hq Hu). cbv zeta.
    fold marked. rewrite Hpage. cbn [fst snd]. reflexivity. }
  change (py "http://example.com/" ++ tail ++ py "a") with (u ++ py "a").
  cbn [base_url urls_to_visit visited_urls save_data emit set_urls_to_visit
       set_profiles count_request].
  split_and!; [done | done |].
  change (visited_urls marked) with ({[u]} ∪ visited_urls self).
  intros v [Hv | Hv]%elem_of_union.
  - apply elem_of_singleton in Hv. subst v. lia.
  - apply Hshort in Hv. lia.
Qed.

Lemma endless_loop (fuel : nat) (self : scraper) (tail : str) :
  base_url self = py "http://example.com/" →
  urls_to_visit self = [py "http://example.com/" ++ tail] →
  (∀ v, v ∈ visited_urls self →
        length v < length (py "http://example.com/" ++ tail)) →
  scrape_website_loop endless_site 50 fuel (self, 0%Z) = None.
Proof.
  revert self tail. induction fuel as [|fuel IH]; intros self tail Hb Hq Hshort.
  - simpl. unfold loop_cond. cbn [fst snd]. by rewrite Hq.
  - cbn [scrape_website_loop]. unfold loop_cond at 1. cbn [fst snd].
    rewrite Hq. change (0 <? 50)%Z with true. cbv iota.
    destruct (endless_turn self tail Hb Hq Hshort) as (self' & -> & Hb' & Hq' & Hs').
    by apply (IH self' (tail ++ py "a")).
Qed.

(** C5 fails on the code: on the endless site, whose pages each hold a
    new link of the site followed by a link on which [urljoin] raises, the
    loop of [scrape_website] is still running after any number of turns:
    every page fails, so the counter never reaches the maximum, and every
    page has queued a new URL before failing, so the queue never empties. *)
Theorem endless_site_never_ends (fuel : nat) :
  scrape_website endless_site 50 fuel (new_scraper (py "http://example.com/"))
  = None.
Proof.
  unfold scrape_website, loop_entry.
  rewrite (endless_loop fuel _ []); [done | done | |].
  - by rewrite app_nil_r.
  - intros v Hv. by apply not_elem_of_empty in Hv.
Qed.

(* ===================================================================== *)
(** * The properties on the sample sites *)
(* ===================================================================== *)

(** The crawl of the site of two pages: the link to the other host is
    never queued, the page that times out is visited, one profile is
    found, and the file is written once, at the end. *)
Example example_site_run :
  ∃ final,
    scrape_website example_site 50 2 (new_scraper example_base) = Some final
    ∧ urls_to_visit (example_point 6) = [example_about]
    ∧ urls_to_visit final = []
    ∧ elements (visited_urls final) ≡ₚ [example_base; example_about]
    ∧ profiles final = [ada]
    ∧ saved_snapshots (events final) = [[ada]].
Proof.
  eexists. split; [vm_compute; reflexivity|].
  split_and!; try (vm_compute; reflexivity).
  vm_compute. apply Permutation_swap.
Qed.

(** On the chain of pages with a budget of 10 pages: ten pages are
    scraped, the profiles are saved after the tenth page and once more at
    the end. *)
Example chain_site_run :
  ∃ final,
    scrape_website chain_site 10 10 (new_scraper (py "http://example.com/"))
    = Some final
    ∧ length (scraped_urls (events final)) = 10
    ∧ length (profiles final) = 10
    ∧ List.map length (saved_snapshots (events final)) = [10; 10].
Proof. eexists. split_and!; vm_compute; reflexivity. Qed.

(** With a budget of no page, nothing is fetched and the empty list is
    saved. *)
Example example_site_no_budget :
  ∃ final,
    scrape_website example_site 0 0 (new_scraper example_base) = Some final
    ∧ scraped_urls (events final) = []
    ∧ saved_snapshots (events final) = [[]].
Proof. eexists. split_and!; vm_compute; reflexivity. Qed.

(** The frontier on the site of two pages, between the point where the
    home page is marked and the point where its first link is queued. *)
Lemma visited_pending_disjoint_witness :
  (∀ u, ¬ (u ∈ visited_urls (example_point 3)
           ∧ u ∈ urls_to_visit (example_point 3)))
  ∧ (∀ u, u ∈ visited_urls (example_point 3) →
          u ∈ visited_urls (example_point 5)
          ∧ (u ∉ urls_to_visit (example_point 5)))
  ∧ NoDup (scraped_urls (events (example_point 5)))
  ∧ NoDup (urls_to_visit (example_point 5)).
Proof.
  apply (visited_pending_disjoint example_site 50 example_base 3 3 5).
  - lia.
  - vm_compute. reflexivity.
  - vm_compute. reflexivity.
Defined.

(** The link to the other host is not queued. *)
Lemma rejected_url_never_queued_witness :
  py "http://other.com/x" ∉ urls_to_visit (example_point 6).
Proof.
  apply (rejected_url_never_queued example_site 50 example_base 3 6).
  - vm_compute. reflexivity.
  - intros Heq. vm_compute in Heq. discriminate Heq.
  - vm_compute. reflexivity.
Defined.

(** C6 (as stated) fails: [is_valid_url] rejects the base URL
    [ftp://example.com], and line 104 puts it in the queue. *)
Lemma base_url_queued_unchecked :
  is_valid_url example_site (new_scraper (py "ftp://example.com"))
    (py "ftp://example.com") = false
  ∧ run_trace example_site 50 1 (py "ftp://example.com") !! 1
    = Some (loop_entry (new_scraper (py "ftp://example.com"))).1
  ∧ py "ftp://example.com"
    ∈ urls_to_visit (loop_entry (new_scraper (py "ftp://example.com"))).1.
Proof.
  split_and!; [vm_compute; reflexivity | vm_compute; reflexivity |].
  simpl. apply list_elem_of_here.
Qed.

(** The page [/about] is admitted, the link [//[] is refused. *)
Lemma is_valid_url_sound_witness :
  (∃ parsed_base parsed,
     urlparse example_site (base_url (new_scraper example_base))
     = Some parsed_base
     ∧ urlparse example_site example_about = Some parsed
     ∧ netloc parsed = netloc parsed_base
     ∧ (scheme parsed = py "http" ∨ scheme parsed = py "https"))
  ∧ is_valid_url example_site (new_scraper example_base) (py "//[") = false.
Proof.
  split.
  - apply (proj1 (is_valid_url_sound example_site (new_scraper example_base)
                    example_about)).
    vm_compute. reflexivity.
  - apply (proj2 (is_valid_url_sound example_site (new_scraper example_base)
                    (py "//["))).
    vm_compute. reflexivity.
Defined.

(** While the API is down the extraction call gives the empty list. *)
Lemma extraction_failure_gives_no_profile_witness :
  extract_profiles_with_openai example_site_api_down
    (new_scraper example_base) (py "Ada")
  = (JArr [], emit Print_error_openai (new_scraper example_base))
  ∧ list_extend (profiles (new_scraper example_base))
      (extract_profiles_with_openai example_site_api_down
         (new_scraper example_base) (py "Ada")).1
    = Some (profiles (new_scraper example_base)).
Proof.
  apply (proj1 (extraction_failure_gives_no_profile example_site_api_down
                  (new_scraper example_base) (py "Ada"))).
  left. vm_compute. reflexivity.
Defined.

(** C8 (as stated) fails: the answer [{"profiles": [1]}] is valid JSON
    that has not the shape asked for; the extraction call returns the
    list [[1]] and the page adds one item to the profiles. *)
Lemma odd_answer_is_kept :
  chat_completion example_site_odd_answer 1 (clean_text (py "Ada  Lovelace"))
  = Decoded (JObj [(py "profiles", JArr [JInt 1])])
  ∧ has_profiles_shape (JObj [(py "profiles", JArr [JInt 1])]) = false
  ∧ (extract_profiles_with_openai example_site_odd_answer
       (count_request (new_scraper example_base))
       (clean_text (py "Ada  Lovelace"))).1 = JArr [JInt 1]
  ∧ profiles (scrape_page example_site_odd_answer (new_scraper example_base)
                example_base).2 = [JInt 1].
Proof. split_and!; vm_compute; reflexivity. Qed.

(** The request for [/about] times out: the second turn of the crawl;
    and the home page, fetched while the model's API is down. *)
Lemma failed_fetch_is_skipped_witness :
  ((scrape_page example_site
      (visit example_about (set_urls_to_visit [] (example_point 7)))
      example_about).1 = false
   ∧ profiles (loop_body example_site (example_point 7, 1%Z)).1
     = profiles (example_point 7)
   ∧ urls_to_visit (loop_body example_site (example_point 7, 1%Z)).1 = []
   ∧ example_about
     ∈ visited_urls (loop_body example_site (example_point 7, 1%Z)).1
   ∧ (loop_body example_site (example_point 7, 1%Z)).2 = 1%Z
   ∧ ∀ fuel,
       scrape_website_loop example_site 50 (S fuel) (example_point 7, 1%Z)
       = scrape_website_loop example_site 50 fuel
           (loop_body example_site (example_point 7, 1%Z)))
  ∧ (profiles (loop_body example_site_api_down
                 (loop_entry (new_scraper example_base))).1 = []
     ∧ example_base
       ∈ visited_urls (loop_body example_site_api_down
                         (loop_entry (new_scraper example_base))).1
     ∧ (scrape_page example_site_api_down
          (visit example_base
             (set_urls_to_visit [] (loop_entry (new_scraper example_base)).1))
          example_base).1 = true
     ∧ (loop_body example_site_api_down
          (loop_entry (new_scraper example_base))).2 = 1%Z).
Proof.
  split.
  - refine (proj1 (failed_fetch_is_skipped example_site 50 (example_point 7) 1
                     example_about [] _ _ _) _).
    + vm_compute. reflexivity.
    + apply (bool_decide_eq_false_1
               (example_about ∈ visited_urls (example_point 7))).
      vm_compute. reflexivity.
    + lia.
    + left. vm_compute. reflexivity.
  - assert (Hq : urls_to_visit (loop_entry (new_scraper example_base)).1
                 = example_base :: []) by reflexivity.
    assert (Hu : example_base
                 ∉ visited_urls (loop_entry (new_scraper example_base)).1)
      by apply not_elem_of_empty.
    assert (Hn : (0 < 50)%Z) by lia.
    destruct (proj2 (failed_fetch_is_skipped example_site_api_down 50
                       (loop_entry (new_scraper example_base)).1 0
                       example_base [] Hq Hu Hn)
                (py "Ada  Lovelace") [example_about; py "http://other.com/x"])
      as (Hp & Hv & Hlinks).
    + vm_compute. reflexivity.
    + left. vm_compute. reflexivity.
    + destruct Hlinks as (Hok & Hcount & _).
      * repeat constructor; vm_compute; discriminate.
      * split_and!; [exact Hp | exact Hv | exact Hok | exact Hcount].
Defined.

(** C2 (as stated) fails: on the home page of the sample site, while the
    model's API raises, [scrape_page] returns [True], the link of the
    page is queued and the counter goes from 0 to 1. *)
Lemma api_failure_counts_as_success :
  chat_completion example_site_api_down 1 (clean_text (py "Ada  Lovelace"))
  = Api_raises
  ∧ (scrape_page example_site_api_down
       (visit example_base (set_urls_to_visit [] (new_scraper example_base)))
       example_base).1 = true
  ∧ urls_to_visit
      (loop_body example_site_api_down
         (loop_entry (new_scraper example_base))).1 = [example_about]
  ∧ (loop_body example_site_api_down
       (loop_entry (new_scraper example_base))).2 = 1%Z.
Proof. split_and!; vm_compute; reflexivity. Qed.

(** A first page that fails leaves the counter at 0, and the empty list
    of profiles is saved at the end of the turn. *)
Lemma save_every_tenth_page_witness :
  saved_snapshots
    (events (loop_body example_site
               (loop_entry (new_scraper (py "http://example.com/missing")))).1)
  = saved_snapshots
      (events (loop_entry (new_scraper (py "http://example.com/missing"))).1)
    ++ (if ((loop_body example_site
               (loop_entry (new_scraper (py "http://example.com/missing")))).2
            mod 10 =? 0)%Z
        then [profiles
                (loop_body example_site
                   (loop_entry (new_scraper (py "http://example.com/missing")))).1]
        else []).
Proof.
  refine (proj1 (proj2
    (save_every_tenth_page example_site 50 (py "http://example.com/missing")
       (loop_entry (new_scraper (py "http://example.com/missing"))) _ _))).
  - apply rtc_refl.
  - vm_compute. reflexivity.
Defined.

(** On the site of two pages [urljoin] accepts every link, and the
    crawl ends. *)
Lemma scrape_website_terminates_witness :
  ∃ fuel final n,
    scrape_website_loop example_site 50 fuel
      (loop_entry (new_scraper example_base)) = Some (final, n)
    ∧ scrape_website example_site 50 fuel (new_scraper example_base)
      = Some (save_data final)
    ∧ (urls_to_visit final = [] ∨ (50 ≤ n)%Z).
Proof.
  apply (scrape_website_terminates example_site 50 (new_scraper example_base)).
  intros n url text hrefs. cbn [http_get example_site].
  destruct (bool_decide (url = py "http://example.com")); [|discriminate].
  intros [= <- <-]. repeat constructor; vm_compute; discriminate.
Defined.

(* ===================================================================== *)
(** * More on [clean_text] *)
(* ===================================================================== *)

(** Collapsing the whitespace never makes a text longer; a text that
    starts with whitespace gets shorter. *)
Lemma collapse_length_head (s : str) :
  length (collapse s)
  + (match s with c :: _ => if isspace c then 1 else 0 | [] => 0 end)
  ≤ length s.
Proof.
  unfold collapse. induction s as [|c s IH]; [done|].
  cbn [split_ws]. destruct (isspace c) eqn:Hc.
  { cbn [length]. destruct s as [|d s']; [simpl; lia|].
    destruct (isspace d); lia. }
  destruct s as [|d s']; [simpl; lia|].
  destruct (isspace d) eqn:Hd.
  - destruct (split_ws (d :: s')) as [|w' ws'].
    + simpl. lia.
    + change (join [SPACE] ([c] :: w' :: ws'))
        with (c :: SPACE :: join [SPACE] (w' :: ws')).
      cbn [length] in *. lia.
  - destruct (split_ws (d :: s')) as [|w' ws'].
    + simpl. lia.
    + assert (Hjoin : join [SPACE] ((c :: w') :: ws')
                      = c :: join [SPACE] (w' :: ws')) by (by destruct ws').
      rewrite Hjoin. cbn [length] in *. lia.
Qed.

Lemma collapse_length (s : str) : length (collapse s) ≤ length s.
Proof. pose proof (collapse_length_head s). lia. Qed.

Lemma split_ws_whitespace (s : str) :
  Forall (λ c, isspace c = true) s → split_ws s = [].
Proof.
  induction 1 as [|c s Hc _ IH]; [done|]. simpl. by rewrite Hc.
Qed.

(** X1: the cleaned text is empty or longer than 30 characters, and
    never longer than the text given; a text of at most 30 characters,
    or of whitespace only, is cleaned to the empty string. *)
Theorem clean_text_length (text : str) :
  (clean_text text = [] ∨ 30 < length (clean_text text))
  ∧ length (clean_text text) ≤ length text
  ∧ (length text ≤ 30 → clean_text text = [])
  ∧ (Forall (λ c, isspace c = true) text → clean_text text = []).
Proof.
  rewrite clean_text_cases. pose proof (collapse_length text) as Hlen.
  split_and!.
  - destruct (30 <? length (collapse text)) eqn:H30; [right | by left].
    by apply Nat.ltb_lt.
  - destruct (30 <? length (collapse text)); simpl; lia.
  - intros Hshort. destruct (30 <? length (collapse text)) eqn:H30; [|done].
    apply Nat.ltb_lt in H30. lia.
  - intros Hws. unfold collapse. by rewrite split_ws_whitespace.
Qed.

Lemma clean_text_length_witness :
  clean_text (py "a short line") = []
  ∧ clean_text (py "     	 ") = [].
Proof.
  split.
  - apply (proj1 (proj2 (proj2 (clean_text_length (py "a short line"))))).
    vm_compute. lia.
  - apply (proj2 (proj2 (proj2 (clean_text_length (py "     	 "))))).
    repeat constructor.
Defined.

(** X2: the cleaned text is in normal form: stripping it or collapsing
    its whitespace again changes nothing, its only whitespace is the
    space, and when it is not empty its words are the words of the text
    given, in order. *)
Theorem clean_text_normal_form (text : str) :
  strip (clean_text text) = clean_text text
  ∧ collapse (clean_text text) = clean_text text
  ∧ Forall (λ c, isspace c = true → c = SPACE) (clean_text text)
  ∧ (clean_text text ≠ [] → split_ws (clean_text text) = split_ws text).
Proof.
  rewrite clean_text_cases.
  destruct (30 <? length (collapse text)); split_and!; try done.
  - apply strip_collapse.
  - apply collapse_collapse.
  - apply join_words_spaces, split_ws_words.
  - intros _. unfold collapse. apply split_ws_join, split_ws_words.
Qed.

Lemma clean_text_normal_form_witness :
  split_ws (clean_text (py "  Ada   Lovelace wrote the first   program   "))
  = split_ws (py "  Ada   Lovelace wrote the first   program   ").
Proof.
  apply (proj2 (proj2 (proj2 (clean_text_normal_form
           (py "  Ada   Lovelace wrote the first   program   "))))).
  vm_compute. discriminate.
Defined.

(* ===================================================================== *)
(** * More on the admission check and on link discovery *)
(* ===================================================================== *)

Section Links.

Context (w : world).

(** X3: the base URL passes its own admission check exactly when it
    parses with the scheme [http] or [https]; and when [urlparse] raises
    on the base URL no URL at all is admitted. *)
Theorem is_valid_url_of_base (self : scraper) :
  (is_valid_url w self (base_url self) = true ↔
   ∃ parsed_base,
     urlparse w (base_url self) = Some parsed_base
     ∧ (scheme parsed_base = py "http" ∨ scheme parsed_base = py "https"))
  ∧ (urlparse w (base_url self) = None →
     ∀ url, is_valid_url w self url = false).
Proof.
  unfold is_valid_url. split; [split|].
  - destruct (urlparse w (base_url self)) as [parsed_base|]; [|done].
    intros [_ Hscheme]%andb_true_iff. apply bool_decide_eq_true in Hscheme.
    exists parsed_base. split; [done|].
    apply elem_of_cons in Hscheme as [? | Hscheme]; [by left|].
    apply list_elem_of_singleton in Hscheme. by right.
  - intros (parsed_base & -> & Hscheme).
    apply andb_true_iff. split; apply bool_decide_eq_true; [done|].
    destruct Hscheme as [-> | ->]; [left | right; left].
  - by intros ->.
Qed.

Lemma extract_links_frame (hrefs : list str) (u : str) (p : scraper) :
  base_url (extract_links w hrefs u p).2 = base_url p
  ∧ visited_urls (extract_links w hrefs u p).2 = visited_urls p
  ∧ profiles (extract_links w hrefs u p).2 = profiles p
  ∧ events (extract_links w hrefs u p).2 = events p
  ∧ requests (extract_links w hrefs u p).2 = requests p
  ∧ urls_to_visit p `prefix_of` urls_to_visit (extract_links w hrefs u p).2.
Proof.
  revert p. induction hrefs as [|href rest IH]; intros p; [done|].
  simpl. destruct (urljoin w u href) as [a|]; [|done].
  destruct (admits w p a); [|apply IH].
  destruct (IH (set_urls_to_visit (urls_to_visit p ++ [a]) p))
    as (? & ? & ? & ? & ? & Hpre).
  split_and!; try done.
  etrans; [|exact Hpre]. by apply prefix_app_r.
Qed.

(** X4: [extract_links] only appends to the queue, and touches nothing
    else; when it goes through all the links, a URL is in the queue
    afterwards exactly when it was there before, or is the absolute URL of
    a link of the page that is admitted and not visited. *)
Theorem extract_links_queue (hrefs : list str) (u : str) (p : scraper) :
  (extract_links w hrefs u p).1 = true →
  urls_to_visit p `prefix_of` urls_to_visit (extract_links w hrefs u p).2
  ∧ visited_urls (extract_links w hrefs u p).2 = visited_urls p
  ∧ profiles (extract_links w hrefs u p).2 = profiles p
  ∧ ∀ v, v ∈ urls_to_visit (extract_links w hrefs u p).2 ↔
         v ∈ urls_to_visit p
         ∨ ∃ href, href ∈ hrefs ∧ urljoin w u href = Some v
                   ∧ is_valid_url w p v = true ∧ (v ∉ visited_urls p).
Proof.
  intros Hfin.
  destruct (extract_links_frame hrefs u p) as (_ & Hv & Hp & _ & _ & Hpre).
  split_and!; try done. clear Hv Hp Hpre.
  revert p Hfin. induction hrefs as [|href rest IH]; intros p Hfin v.
  { simpl. split; [by left|]. intros [? | (href & Hin & _)]; [done|].
    by apply elem_of_nil in Hin. }
  simpl in Hfin |- *. destruct (urljoin w u href) as [a|] eqn:Hjoin; [|done].
  rewrite (IH _ Hfin v). clear IH Hfin.
  destruct (admits w p a) eqn:Hadm.
  - apply admits_true in Hadm as (Hvalid & Hnv & Hnq). simpl.
    rewrite elem_of_app, list_elem_of_singleton. split.
    + intros [[Hq | ->] | (h & Hin & Hj & Hval & Hvis)].
      * by left.
      * right. exists href. split_and!; [left | done..].
      * right. exists h. split_and!; [by right | done..].
    + intros [Hq | (h & Hin & Hj & Hval & Hvis)]; [by left; left|].
      apply elem_of_cons in Hin as [-> | Hin].
      * left. right. congruence.
      * right. by exists h.
  - split.
    + intros [Hq | (h & Hin & Hj & Hval & Hvis)]; [by left|].
      right. exists h. split_and!; [by right | done..].
    + intros [Hq | (h & Hin & Hj & Hval & Hvis)]; [by left|].
      apply elem_of_cons in Hin as [-> | Hin]; [|right; by exists h].
      left. rewrite Hjoin in Hj. injection Hj as ->.
      destruct (decide (v ∈ urls_to_visit p)) as [|Hnq]; [done|].
      assert (admits w p v = true) by (by apply admits_true). congruence.
Qed.

Lemma admits_false_later (p r : scraper) (a : str) :
  base_url r = base_url p → visited_urls r = visited_urls p →
  urls_to_visit p `prefix_of` urls_to_visit r →
  admits w p a = false → admits w r a = false.
Proof.
  intros Hb Hv [k Hk] Hadm.
  destruct (admits w r a) eqn:Hadm'; [|done].
  apply admits_true in Hadm' as (Hvalid & Hnv & Hnq).
  assert (admits w p a = true); [|congruence].
  apply admits_true. split_and!.
  - by rewrite (is_valid_url_base w p r).
  - by rewrite <- Hv.
  - intros Hq. apply Hnq. rewrite Hk. apply elem_of_app. by left.
Qed.

(** X5: going through the links of a page a second time changes
    nothing: every link was queued, or refused, the first time. *)
Theorem extract_links_again (hrefs : list str) (u : str) (p : scraper) :
  extract_links w hrefs u (extract_links w hrefs u p).2
  = extract_links w hrefs u p.
Proof.
  revert p. induction hrefs as [|href rest IH]; intros p; [done|].
  cbn [extract_links]. destruct (urljoin w u href) as [a|] eqn:Hjoin.
  2: done.
  set (p1 := if admits w p a
             then set_urls_to_visit (urls_to_visit p ++ [a]) p else p).
  assert (Hp1 : admits w p1 a = false).
  { subst p1. destruct (admits w p a) eqn:Hadm; [|done].
    unfold admits. simpl.
    rewrite (bool_decide_eq_true_2 (a ∈ urls_to_visit p ++ [a]));
      [by rewrite andb_false_r|].
    apply elem_of_app. right. left. }
  destruct (extract_links_frame rest u p1) as (Hb & Hv & _ & _ & _ & Hpre).
  rewrite (admits_false_later p1 _ a Hb Hv Hpre Hp1). apply IH.
Qed.

End Links.

(** On the home page of the site of two pages, the link of the site is
    queued and the link to the other host is not. *)
Lemma extract_links_queue_witness :
  urls_to_visit (new_scraper example_base)
    `prefix_of` urls_to_visit
      (extract_links example_site [example_about; py "http://other.com/x"]
         example_base (new_scraper example_base)).2
  ∧ visited_urls
      (extract_links example_site [example_about; py "http://other.com/x"]
         example_base (new_scraper example_base)).2
    = visited_urls (new_scraper example_base)
  ∧ profiles
      (extract_links example_site [example_about; py "http://other.com/x"]
         example_base (new_scraper example_base)).2
    = profiles (new_scraper example_base)
  ∧ ∀ v, v ∈ urls_to_visit
               (extract_links example_site
                  [example_about; py "http://other.com/x"] example_base
                  (new_scraper example_base)).2 ↔
         v ∈ urls_to_visit (new_scraper example_base)
         ∨ ∃ href, href ∈ [example_about; py "http://other.com/x"]
                   ∧ urljoin example_site example_base href = Some v
                   ∧ is_valid_url example_site (new_scraper example_base) v = true
                   ∧ (v ∉ visited_urls (new_scraper example_base)).
Proof.
  apply (extract_links_queue example_site
           [example_about; py "http://other.com/x"]
           example_base (new_scraper example_base)).
  vm_compute. reflexivity.
Defined.

Lemma is_valid_url_of_base_witness :
  is_valid_url example_site (new_scraper example_base)
    (base_url (new_scraper example_base)) = true.
Proof.
  apply (proj1 (is_valid_url_of_base example_site (new_scraper example_base))).
  eexists. split; [vm_compute; reflexivity|]. left. reflexivity.
Defined.

(* ===================================================================== *)
(** * More on [scrape_page] and on the loop *)
(* ===================================================================== *)

Section Run.

Context (w : world).

Lemma list_extend_prefix (l : list json) (x : json) (extended : list json) :
  list_extend l x = Some extended → l `prefix_of` extended.
Proof.
  destruct x; simpl; intros [= <-]; by apply prefix_app_r.
Qed.

Lemma error_lines_silent (u : str) (evs : list event) :
  Forall (error_line u) evs →
  scraped_urls evs = [] ∧ saved_snapshots evs = [] ∧ counted_pages evs = [].
Proof.
  induction 1 as [|e evs [-> | ->] _ (IH1 & IH2 & IH3)]; [done|..].
  - split_and!; [exact IH1 | exact IH2 | exact IH3].
  - split_and!; [exact IH1 | exact IH2 | exact IH3].
Qed.

(** What [scrape_page] leaves as it was. *)
Lemma scrape_page_effect (p : scraper) (u : str) :
  base_url (scrape_page w p u).2 = base_url p
  ∧ visited_urls (scrape_page w p u).2 = visited_urls p
  ∧ requests (scrape_page w p u).2 = S (requests p)
  ∧ urls_to_visit p `prefix_of` urls_to_visit (scrape_page w p u).2
  ∧ profiles p `prefix_of` profiles (scrape_page w p u).2
  ∧ ∃ evs, events (scrape_page w p u).2 = events p ++ evs
           ∧ Forall (error_line u) evs.
Proof.
  assert (Herr : ∀ q evs,
    base_url q = base_url p → visited_urls q = visited_urls p →
    requests q = S (requests p) →
    urls_to_visit p `prefix_of` urls_to_visit q →
    profiles p `prefix_of` profiles q →
    events q = events p ++ evs → Forall (error_line u) evs →
    let r := emit (Print_error_scraping u) q in
    base_url r = base_url p ∧ visited_urls r = visited_urls p
    ∧ requests r = S (requests p)
    ∧ urls_to_visit p `prefix_of` urls_to_visit r
    ∧ profiles p `prefix_of` profiles r
    ∧ ∃ evs', events r = events p ++ evs' ∧ Forall (error_line u) evs').
  { intros q evs ? ? ? ? ? Hev Hevs. simpl. split_and!; try done.
    exists (evs ++ [Print_error_scraping u]). rewrite Hev, app_assoc.
    split; [done|]. apply Forall_app. split; [done|].
    constructor; [by right | constructor]. }
  unfold scrape_page. cbv zeta.
  destruct (http_get w (requests p) u) as [| | |text hrefs];
    try (apply (Herr (count_request p) []);
         [done | done | done | done | done | by rewrite app_nil_r | constructor]).
  pose proof (extract_profiles_object w (count_request p) (clean_text text))
    as Hobj.
  destruct (extract_profiles_with_openai w (count_request p) (clean_text text))
    as [x p1]; cbn [fst snd] in Hobj.
  assert (Hp1 : base_url p1 = base_url p ∧ visited_urls p1 = visited_urls p
                ∧ requests p1 = S (requests p)
                ∧ urls_to_visit p1 = urls_to_visit p
                ∧ profiles p1 = profiles p
                ∧ ∃ evs, events p1 = events p ++ evs ∧ Forall (error_line u) evs).
  { destruct Hobj as [-> | ->]; split_and!; try done.
    - exists []. by rewrite app_nil_r.
    - exists [Print_error_openai]. split; [done|].
      constructor; [by left | constructor]. }
  destruct Hp1 as (Hb1 & Hv1 & Hr1 & Hq1 & Hpr1 & evs & Hev1 & Hevs1).
  destruct (list_extend (profiles p1) x) as [extended|] eqn:Hext.
  2: { apply (Herr p1 evs); try done; [by rewrite Hq1 | by rewrite Hpr1]. }
  apply list_extend_prefix in Hext. rewrite Hpr1 in Hext.
  destruct (extract_links_frame w hrefs u (set_profiles extended p1))
    as (Hb2 & Hv2 & Hpr2 & Hev2 & Hr2 & Hq2).
  simpl in Hb2, Hv2, Hpr2, Hev2, Hr2, Hq2. rewrite Hq1 in Hq2.
  destruct (extract_links w hrefs u (set_profiles extended p1)) as [[] p2];
    cbn [fst snd] in *.
  - split_and!; try congruence; try (by rewrite Hpr2).
    exists evs. split; [congruence | done].
  - apply (Herr p2 evs); try congruence; try (by rewrite Hpr2).
Qed.

(** X6: [scrape_page] issues one request, keeps the base URL and the
    visited set, only appends to the queue and to the profiles, and
    prints nothing but error lines: it never writes the file, and it
    prints no line [Scraping: ...] or [Pages scraped: ...]. *)
Theorem scrape_page_frame (p : scraper) (u : str) :
  base_url (scrape_page w p u).2 = base_url p
  ∧ visited_urls (scrape_page w p u).2 = visited_urls p
  ∧ requests (scrape_page w p u).2 = S (requests p)
  ∧ urls_to_visit p `prefix_of` urls_to_visit (scrape_page w p u).2
  ∧ profiles p `prefix_of` profiles (scrape_page w p u).2
  ∧ saved_snapshots (events (scrape_page w p u).2) = saved_snapshots (events p)
  ∧ scraped_urls (events (scrape_page w p u).2) = scraped_urls (events p)
  ∧ counted_pages (events (scrape_page w p u).2) = counted_pages (events p).
Proof.
  destruct (scrape_page_effect p u)
    as (Hb & Hv & Hr & Hq & Hp & evs & Hev & Hevs).
  destruct (error_lines_silent u evs Hevs) as (H1 & H2 & H3).
  split_and!; try done; rewrite Hev.
  - unfold saved_snapshots in *. by rewrite omap_app, H2, app_nil_r.
  - unfold scraped_urls in *. by rewrite omap_app, H1, app_nil_r.
  - unfold counted_pages in *. by rewrite omap_app, H3, app_nil_r.
Qed.

(** What one turn does from a state of a run: the URL at the head of
    the queue was not visited; it is marked, one request is issued, the
    queue and the profiles are only appended to, and the lines written
    are, in order: the line [Scraping: ...], the pause, error lines, the
    line [Pages scraped: ...] if the page succeeded, and the file if the
    counter is a multiple of 10. *)
Lemma turn_summary (base : str) (self : scraper) (n : Z) (u : str)
    (rest : list str) :
  crawl_inv w base self → urls_to_visit self = u :: rest →
  (u ∉ visited_urls self)
  ∧ ∃ (b : bool) (added : list str) (found : list json) (evs : list event),
      let n' := (if b then n + 1 else n)%Z in
      let s' := (loop_body w (self, n)).1 in
      (loop_body w (self, n)).2 = n'
      ∧ base_url s' = base_url self
      ∧ visited_urls s' = {[u]} ∪ visited_urls self
      ∧ requests s' = S (requests self)
      ∧ urls_to_visit s' = rest ++ added
      ∧ profiles s' = profiles self ++ found
      ∧ Forall (error_line u) evs
      ∧ events s' =
        events self ++ [Print_scraping u; Sleep] ++ evs
        ++ (if b then [Print_pages_scraped (n + 1)] else [])
        ++ (if (n' mod 10 =? 0)%Z then [Write_profiles (profiles s')] else []).
Proof.
  intros Hinv Hq.
  destruct (crawl_inv_popleft w base _ _ _ Hq Hinv) as (_ & _ & Hu).
  split; [done|].
  rewrite (loop_body_visit w _ _ _ _ Hq Hu). cbv zeta.
  destruct (scrape_page_effect (visit u (set_urls_to_visit rest self)) u)
    as (Hb & Hv & Hr & [added Hadded] & [found Hfound] & evs & Hev & Hevs).
  simpl in Hb, Hv, Hr, Hadded, Hfound, Hev.
  destruct (scrape_page w (visit u (set_urls_to_visit rest self)) u) as [b s].
  cbn [fst snd] in *. exists b, added, found, evs.
  destruct b; cbn [fst snd].
  - destruct ((n + 1) mod 10 =? 0)%Z; simpl; rewrite ?Hev, ?Hfound;
      split_and!; try done; by rewrite <- ?app_assoc.
  - destruct (n mod 10 =? 0)%Z; simpl; rewrite ?Hev, ?Hfound;
      split_and!; try done; by rewrite <- ?app_assoc, ?app_nil_r.
Qed.

Lemma turn_events_projections (E evs : list event) (u : str) (b c : bool)
    (k : Z) (P : list json) :
  Forall (error_line u) evs →
  let E' := E ++ [Print_scraping u; Sleep] ++ evs
            ++ (if b then [Print_pages_scraped k] else [])
            ++ (if c then [Write_profiles P] else []) in
  scraped_urls E' = scraped_urls E ++ [u]
  ∧ saved_snapshots E' = saved_snapshots E ++ (if c then [P] else [])
  ∧ counted_pages E' = counted_pages E ++ (if b then [k] else []).
Proof.
  intros Hevs. destruct (error_lines_silent u evs Hevs) as (H1 & H2 & H3).
  unfold scraped_urls, saved_snapshots, counted_pages in *. cbv zeta.
  rewrite !omap_app, H1, H2, H3. by destruct b, c.
Qed.

Lemma run_inv_entry (max_pages : Z) (base : str) :
  run_inv w max_pages base (loop_entry (new_scraper base)).
Proof.
  unfold run_inv, discovery_order; simpl. split_and!; try done.
  - intros u. split; intros Hu.
    + by apply not_elem_of_empty in Hu.
    + by apply elem_of_nil in Hu.
  - lia.
  - intros u Hu. by apply elem_of_nil in Hu.
Qed.

Lemma run_inv_turn (max_pages : Z) (base : str) (st : loop_state) :
  crawl_inv w base st.1 → run_inv w max_pages base st →
  loop_cond max_pages st = true →
  run_inv w max_pages base (loop_body w st)
  ∧ discovery_order st.1 `prefix_of` discovery_order (loop_body w st).1
  ∧ profiles st.1 `prefix_of` profiles (loop_body w st).1
  ∧ saved_snapshots (events st.1)
    `prefix_of` saved_snapshots (events (loop_body w st).1).
Proof.
  destruct st as [self n]. unfold loop_cond. cbn [fst snd].
  intros Hinv (Hreq & Hvis & Hn & Hcount & Hsnap & Hsite & Hfirst) Hcond.
  cbn [fst snd] in *.
  destruct (urls_to_visit self) as [|u rest] eqn:Hq; [done|].
  apply Z.ltb_lt in Hcond.
  destruct (turn_summary base self n u rest Hinv Hq)
    as (Hu & b & added & found & evs & Hn' & Hb' & Hv' & Hr' & Hq' & Hp'
        & Hevs & Hev').
  cbv zeta in Hn', Hb', Hv', Hr', Hq', Hp', Hev'.
  destruct (turn_events_projections (events self) evs u b
              (((if b then n + 1 else n) mod 10 =? 0)%Z) (n + 1)
              (profiles (loop_body w (self, n)).1) Hevs) as (Hs1 & Hs2 & Hs3).
  cbv zeta in Hs1, Hs2, Hs3. rewrite <- Hev' in Hs1, Hs2, Hs3.
  destruct (loop_body w (self, n)) as [s' n']. cbn [fst snd] in *. subst n'.
  assert (Horder : discovery_order s' = discovery_order self ++ added).
  { unfold discovery_order. rewrite Hs1, Hq', Hq.
    by rewrite <- !app_assoc. }
  split; [unfold run_inv; cbn [fst snd]; split_and!|split_and!].
  - rewrite Hr', Hs1, length_app, Hreq. simpl. lia.
  - intros v. rewrite Hv', Hs1, elem_of_union, elem_of_singleton,
      elem_of_app, list_elem_of_singleton, Hvis. tauto.
  - destruct b; lia.
  - destruct b; lia.
  - rewrite Hs3, Hcount. destruct b; [|by rewrite app_nil_r].
    replace (Z.to_nat (n + 1)) with (S (Z.to_nat n)) by lia.
    rewrite seq_S, map_app. simpl. do 2 f_equal. lia.
  - rewrite Hs2, Hp'. apply Forall_app. split.
    + eapply Forall_impl; [exact Hsnap|]. intros snap Hpre.
      etrans; [exact Hpre|]. by apply prefix_app_r.
    + destruct (_ =? 0)%Z; constructor; [done | constructor].
  - intros v. rewrite Hs1. intros [Hv | Hv]%elem_of_app; [by apply Hsite|].
    apply list_elem_of_singleton in Hv. subst v.
    destruct Hinv as (Hbase & _ & _ & _ & Hqueue).
    destruct (Hqueue u) as [-> | Hvalid]; [rewrite Hq; left | by left |].
    right. by rewrite (is_valid_url_base w (new_scraper base) self).
  - rewrite Horder. etrans; [exact Hfirst|]. by apply prefix_app_r.
  - rewrite Horder. by apply prefix_app_r.
  - rewrite Hp'. by apply prefix_app_r.
  - rewrite Hs2. by apply prefix_app_r.
Qed.

Lemma reachable_run_inv (max_pages : Z) (base : str) (st : loop_state) :
  reachable w max_pages base st →
  crawl_inv w base st.1 ∧ run_inv w max_pages base st.
Proof.
  unfold reachable. revert st.
  apply (rtc_ind_r (λ st, crawl_inv w base st.1 ∧ run_inv w max_pages base st)).
  { split; [apply crawl_inv_entry | apply run_inv_entry]. }
  intros st st' _ [Hcond ->] [Hinv Hrun]. split.
  - by apply loop_body_inv.
  - by apply run_inv_turn.
Qed.

(** The state in which the loop ends is a state of the run. *)
Lemma loop_reachable (max_pages : Z) (base : str) (fuel : nat)
    (st final : loop_state) :
  reachable w max_pages base st →
  scrape_website_loop w max_pages fuel st = Some final →
  reachable w max_pages base final.
Proof.
  revert st. induction fuel as [|fuel IH]; intros st Hst; simpl;
    destruct (loop_cond max_pages st) eqn:Hcond; try done;
    try (by intros [= <-]).
  apply IH. unfold reachable in *. eapply rtc_r; [exact Hst|]. by split.
Qed.

(** X7: in a run the counter of pages stays between 0 and the maximum
    (0 when the maximum is negative), and the lines [Pages scraped: ...]
    printed so far are numbered 1, 2, ... up to the counter; when the loop
    ends with URLs left in the queue the counter is the maximum. *)
Theorem pages_scraped_bounded (max_pages : Z) (base : str) (st : loop_state) :
  reachable w max_pages base st →
  (0 ≤ st.2 ≤ Z.max 0 max_pages)%Z
  ∧ counted_pages (events st.1) = List.map Z.of_nat (seq 1 (Z.to_nat st.2))
  ∧ (loop_cond max_pages st = false →
     urls_to_visit st.1 = [] ∨ st.2 = Z.max 0 max_pages).
Proof.
  intros Hst.
  destruct (reachable_run_inv _ _ _ Hst) as (_ & _ & _ & Hn & Hcount & _).
  split; [exact Hn|]. split; [exact Hcount|].
  unfold loop_cond. destruct (urls_to_visit st.1); [by left|].
  intros Hge%Z.ltb_ge. right. lia.
Qed.

(** X8: one request is issued for each URL visited: in a run the
    visited URLs are the pages handed to [scrape_page], and their number
    is the number of requests. *)
Theorem one_request_per_visited_url (max_pages : Z) (base : str)
    (st : loop_state) :
  reachable w max_pages base st →
  (∀ u, u ∈ visited_urls st.1 ↔ u ∈ scraped_urls (events st.1))
  ∧ requests st.1 = length (scraped_urls (events st.1))
  ∧ size (visited_urls st.1) = requests st.1.
Proof.
  intros Hst.
  destruct (reachable_run_inv _ _ _ Hst)
    as ((_ & _ & Hnodup & _) & Hreq & Hvis & _).
  split_and!; [done | done |].
  assert (Hset : visited_urls st.1 = list_to_set (scraped_urls (events st.1))).
  { apply set_eq. intros u. by rewrite Hvis, elem_of_list_to_set. }
  rewrite Hset, size_list_to_set by done. by rewrite Hreq.
Qed.

(** X9: the crawl is first in, first out.  The base URL is met first,
    and the order in which the URLs were met (the pages scraped, then the
    queue) only grows at its end from one loop state to a later one: the
    pages are scraped in the order in which they were queued. *)
Theorem crawl_is_fifo (max_pages : Z) (base : str) (st st' : loop_state) :
  reachable w max_pages base st →
  rtc (turn w max_pages) st st' →
  [base] `prefix_of` discovery_order st.1
  ∧ discovery_order st.1 `prefix_of` discovery_order st'.1.
Proof.
  intros Hst Hsteps. split.
  { by destruct (reachable_run_inv _ _ _ Hst) as (_ & _ & _ & _ & _ & _ & _ & ?). }
  revert st' Hsteps.
  apply (rtc_ind_r (λ st', reachable w max_pages base st'
                           ∧ discovery_order st.1 `prefix_of` discovery_order st'.1)).
  - done.
  - intros y z Hy [Hcond ->] [Hry Hpre].
    destruct (reachable_run_inv _ _ _ Hry) as [Hinv Hrun].
    destruct (run_inv_turn _ _ _ Hinv Hrun Hcond) as (_ & Hord & _).
    split; [|by etrans].
    unfold reachable in *. eapply rtc_r; [exact Hry|]. by split.
Qed.

(** X10: the profiles are only appended to, and so is the list of the
    snapshots written: from one loop state of a run to a later one the
    profiles and the snapshots extend the earlier ones, and every snapshot
    written so far is a prefix of the profiles in memory. *)
Theorem profiles_append_only (max_pages : Z) (base : str) (st st' : loop_state) :
  reachable w max_pages base st →
  rtc (turn w max_pages) st st' →
  Forall (λ snapshot, snapshot `prefix_of` profiles st'.1)
    (saved_snapshots (events st'.1))
  ∧ profiles st.1 `prefix_of` profiles st'.1
  ∧ saved_snapshots (events st.1) `prefix_of` saved_snapshots (events st'.1).
Proof.
  intros Hst Hsteps.
  assert (Hall : reachable w max_pages base st'
                 ∧ profiles st.1 `prefix_of` profiles st'.1
                 ∧ saved_snapshots (events st.1)
                   `prefix_of` saved_snapshots (events st'.1)).
  { revert st' Hsteps.
    apply (rtc_ind_r (λ st', reachable w max_pages base st'
                             ∧ profiles st.1 `prefix_of` profiles st'.1
                             ∧ saved_snapshots (events st.1)
                               `prefix_of` saved_snapshots (events st'.1))).
    - done.
    - intros y z Hy [Hcond ->] (Hry & Hp & Hs).
      destruct (reachable_run_inv _ _ _ Hry) as [Hinv Hrun].
      destruct (run_inv_turn _ _ _ Hinv Hrun Hcond) as (_ & _ & Hp' & Hs').
      split_and!; [|by etrans..].
      unfold reachable in *. eapply rtc_r; [exact Hry|]. by split. }
  destruct Hall as (Hst' & Hp & Hs).
  destruct (reachable_run_inv _ _ _ Hst') as (_ & _ & _ & _ & _ & Hsnap & _).
  done.
Qed.

(** X11: the crawl never leaves the site: every page requested in a run
    is the base URL or a URL that [is_valid_url] admits. *)
Theorem never_off_site (max_pages : Z) (base : str) (st : loop_state) (u : str) :
  reachable w max_pages base st →
  u ∈ scraped_urls (events st.1) →
  u = base ∨ is_valid_url w (new_scraper base) u = true.
Proof.
  intros Hst Hu.
  destruct (reachable_run_inv _ _ _ Hst) as (_ & _ & _ & _ & _ & _ & Hsite & _).
  by apply Hsite.
Qed.

End Run.

(* ===================================================================== *)
(** * Edge cases and the result of [scrape_website] *)
(* ===================================================================== *)

Section Edges.

Context (w : world).

(** X12: with a page budget of 0 or less, [scrape_website] requests no
    page: it queues the base URL, writes the profiles it already holds
    and returns, whatever the world. *)
Theorem no_budget_no_request (max_pages : Z) (fuel : nat) (self : scraper) :
  (max_pages ≤ 0)%Z →
  ∃ final,
    scrape_website w max_pages fuel self = Some final
    ∧ requests final = requests self
    ∧ visited_urls final = visited_urls self
    ∧ profiles final = profiles self
    ∧ urls_to_visit final = urls_to_visit self ++ [base_url self]
    ∧ events final = events self ++ [Write_profiles (profiles self)].
Proof.
  intros Hmax. exists (save_data (loop_entry self).1). split; [|done].
  unfold scrape_website.
  assert (Hcond : loop_cond max_pages (loop_entry self) = false).
  { unfold loop_cond, loop_entry. cbn [fst snd urls_to_visit set_urls_to_visit].
    destruct (urls_to_visit self ++ [base_url self]); [done|].
    apply Z.ltb_ge. lia. }
  destruct fuel; cbn [scrape_website_loop]; by rewrite Hcond.
Qed.

(** X13: when the request for the base URL fails, the crawl of a new
    object is over after that one request: the base URL is visited, the
    queue is empty, no profile is found, and the empty list of profiles is
    written twice, at the end of the turn (the counter is 0) and at the
    end of the run. *)
Theorem failing_start_page (max_pages : Z) (fuel : nat) (base : str) :
  (0 < max_pages)%Z →
  (http_get w 0 base = Get_raises ∨ http_get w 0 base = Status_raises
   ∨ http_get w 0 base = Parser_raises) →
  ∃ final,
    scrape_website w max_pages (S fuel) (new_scraper base) = Some final
    ∧ requests final = 1
    ∧ visited_urls final = {[base]}
    ∧ urls_to_visit final = []
    ∧ profiles final = []
    ∧ events final = [Print_scraping base; Sleep; Print_error_scraping base;
                      Write_profiles []; Write_profiles []].
Proof.
  intros Hmax Hfail.
  set (entry := (loop_entry (new_scraper base)).1).
  assert (Hpage : scrape_page w (visit base (set_urls_to_visit [] entry)) base
                  = (false, emit (Print_error_scraping base)
                      (count_request (visit base (set_urls_to_visit [] entry))))).
  { unfold scrape_page. cbv zeta.
    change (requests (visit base (set_urls_to_visit [] entry))) with 0.
    by destruct Hfail as [-> | [-> | ->]]. }
  assert (Hbody : loop_body w (loop_entry (new_scraper base))
                  = (save_data
                       (emit (Print_error_scraping base)
                          (count_request
                             (visit base (set_urls_to_visit [] entry)))),
                     0%Z)).
  { change (loop_entry (new_scraper base)) with (entry, 0%Z).
    rewrite (loop_body_visit w entry 0 base []);
      [|done | apply not_elem_of_empty].
    cbv zeta. by rewrite Hpage. }
  eexists. split.
  { unfold scrape_website. cbn [scrape_website_loop].
    assert (Hcond : loop_cond max_pages (loop_entry (new_scraper base)) = true).
    { unfold loop_cond. simpl. by apply Z.ltb_lt. }
    rewrite Hcond, Hbody. destruct fuel; reflexivity. }
  simpl. split_and!; try done. by rewrite union_empty_r_L.
Qed.

(** X14: a second call of [scrape_website] on an object whose queue is
    empty and whose base URL is visited requests no page: the base URL is
    queued again, skipped by the test of lines 110-111, and the profiles
    are written once more. *)
Theorem second_call_requests_nothing (max_pages : Z) (fuel : nat)
    (self : scraper) :
  urls_to_visit self = [] →
  base_url self ∈ visited_urls self →
  (0 < max_pages)%Z →
  ∃ final,
    scrape_website w max_pages (S fuel) self = Some final
    ∧ requests final = requests self
    ∧ visited_urls final = visited_urls self
    ∧ urls_to_visit final = []
    ∧ profiles final = profiles self
    ∧ events final = events self ++ [Write_profiles (profiles self)].
Proof.
  intros Hq Hbase Hmax.
  assert (Hbody : loop_body w (loop_entry self)
                  = (set_urls_to_visit []
                       (set_urls_to_visit [base_url self] self), 0%Z)).
  { unfold loop_entry. rewrite Hq. simpl app.
    by rewrite (loop_body_skip w _ 0 (base_url self) []). }
  eexists. split.
  { unfold scrape_website. cbn [scrape_website_loop].
    assert (Hcond : loop_cond max_pages (loop_entry self) = true).
    { unfold loop_cond, loop_entry. rewrite Hq. simpl. by apply Z.ltb_lt. }
    rewrite Hcond, Hbody. destruct fuel; reflexivity. }
  done.
Qed.

(** X16: the result of a run that ends.  Either the queue is empty or
    the number of pages scraped with success is the maximum; the file
    holds the profiles returned; the visited URLs are the pages requested,
    each once, the base URL first. *)
Theorem scrape_website_result (max_pages : Z) (fuel : nat) (base : str)
    (final : scraper) :
  scrape_website w max_pages fuel (new_scraper base) = Some final →
  (urls_to_visit final = []
   ∨ Z.of_nat (length (counted_pages (events final))) = Z.max 0 max_pages)
  ∧ (Z.of_nat (length (counted_pages (events final))) ≤ Z.max 0 max_pages)%Z
  ∧ last (saved_snapshots (events final)) = Some (profiles final)
  ∧ (∀ u, u ∈ visited_urls final ↔ u ∈ scraped_urls (events final))
  ∧ NoDup (scraped_urls (events final))
  ∧ requests final = length (scraped_urls (events final))
  ∧ head (discovery_order final) = Some base.
Proof.
  unfold scrape_website.
  destruct (scrape_website_loop w max_pages fuel (loop_entry (new_scraper base)))
    as [[s n]|] eqn:Hrun; [|done].
  intros [= <-].
  assert (Hst : reachable w max_pages base (s, n)).
  { eapply loop_reachable; [apply rtc_refl | exact Hrun]. }
  destruct (reachable_run_inv w _ _ _ Hst)
    as ((_ & _ & Hnodup & _) & Hreq & Hvis & Hn & Hcount & _ & _ & Hfirst).
  cbn [fst snd] in *.
  assert (Hlen : Z.of_nat (length (counted_pages (events (save_data s)))) = n).
  { unfold save_data, counted_pages; simpl. rewrite omap_app; simpl.
    rewrite app_nil_r. fold (counted_pages (events s)).
    rewrite Hcount, length_map, length_seq. lia. }
  assert (Hscraped : scraped_urls (events (save_data s))
                     = scraped_urls (events s)).
  { unfold save_data, scraped_urls; simpl. rewrite omap_app; simpl.
    by rewrite app_nil_r. }
  rewrite Hlen, Hscraped. split_and!; try done.
  - destruct (scrape_website_loop_exit w _ _ _ _ Hrun) as [? | Hge];
      [by left | right]. cbn [snd] in Hge. lia.
  - lia.
  - unfold save_data. rewrite saved_snapshots_emit. simpl.
    by rewrite last_snoc.
  - unfold discovery_order. rewrite Hscraped.
    destruct Hfirst as [k Hk]. unfold discovery_order in Hk.
    change (urls_to_visit (save_data s)) with (urls_to_visit s).
    by rewrite Hk.
Qed.

End Edges.

(* ===================================================================== *)
(** * The run properties on the site of two pages *)
(* ===================================================================== *)

(** After the first turn: one page counted, one line printed. *)
Lemma pages_scraped_bounded_witness :
  (0 ≤ (loop_body example_site (loop_entry (new_scraper example_base))).2
   ≤ Z.max 0 50)%Z
  ∧ counted_pages
      (events (loop_body example_site (loop_entry (new_scraper example_base))).1)
    = List.map Z.of_nat
        (seq 1 (Z.to_nat
           (loop_body example_site (loop_entry (new_scraper example_base))).2))
  ∧ (loop_cond 50 (loop_body example_site (loop_entry (new_scraper example_base)))
     = false →
     urls_to_visit
       (loop_body example_site (loop_entry (new_scraper example_base))).1 = []
     ∨ (loop_body example_site (loop_entry (new_scraper example_base))).2
       = Z.max 0 50).
Proof.
  apply (pages_scraped_bounded example_site 50 example_base).
  apply rtc_once. split; [vm_compute; reflexivity | reflexivity].
Defined.

(** After the first turn: one URL visited, one request. *)
Lemma one_request_per_visited_url_witness :
  (∀ u, u ∈ visited_urls
              (loop_body example_site (loop_entry (new_scraper example_base))).1
        ↔ u ∈ scraped_urls
                (events (loop_body example_site
                           (loop_entry (new_scraper example_base))).1))
  ∧ requests (loop_body example_site (loop_entry (new_scraper example_base))).1
    = length (scraped_urls
                (events (loop_body example_site
                           (loop_entry (new_scraper example_base))).1))
  ∧ size (visited_urls
            (loop_body example_site (loop_entry (new_scraper example_base))).1)
    = requests (loop_body example_site (loop_entry (new_scraper example_base))).1.
Proof.
  apply (one_request_per_visited_url example_site 50 example_base).
  apply rtc_once. split; [vm_compute; reflexivity | reflexivity].
Defined.

(** From the entry of the loop to the end of the first turn. *)
Lemma crawl_is_fifo_witness :
  [example_base]
    `prefix_of` discovery_order (loop_entry (new_scraper example_base)).1
  ∧ discovery_order (loop_entry (new_scraper example_base)).1
    `prefix_of` discovery_order
      (loop_body example_site (loop_entry (new_scraper example_base))).1.
Proof.
  apply (crawl_is_fifo example_site 50 example_base).
  - apply rtc_refl.
  - apply rtc_once. split; [vm_compute; reflexivity | reflexivity].
Defined.

Lemma profiles_append_only_witness :
  Forall (λ snapshot,
            snapshot `prefix_of`
              profiles (loop_body example_site
                          (loop_entry (new_scraper example_base))).1)
    (saved_snapshots
       (events (loop_body example_site (loop_entry (new_scraper example_base))).1))
  ∧ profiles (loop_entry (new_scraper example_base)).1
    `prefix_of` profiles
      (loop_body example_site (loop_entry (new_scraper example_base))).1
  ∧ saved_snapshots (events (loop_entry (new_scraper example_base)).1)
    `prefix_of` saved_snapshots
      (events (loop_body example_site (loop_entry (new_scraper example_base))).1).
Proof.
  apply (profiles_append_only example_site 50 example_base).
  - apply rtc_refl.
  - apply rtc_once. split; [vm_compute; reflexivity | reflexivity].
Defined.

(** The second page requested, [/about], is admitted. *)
Lemma never_off_site_witness :
  example_about = example_base
  ∨ is_valid_url example_site (new_scraper example_base) example_about = true.
Proof.
  apply (never_off_site example_site 50 example_base
           (loop_body example_site
              (loop_body example_site (loop_entry (new_scraper example_base))))).
  - eapply rtc_l; [split; [vm_compute; reflexivity | reflexivity]|].
    apply rtc_once. split; [vm_compute; reflexivity | reflexivity].
  - vm_compute. right. left.
Defined.

Lemma no_budget_no_request_witness :
  ∃ final,
    scrape_website example_site 0 0 (new_scraper example_base) = Some final
    ∧ requests final = requests (new_scraper example_base)
    ∧ visited_urls final = visited_urls (new_scraper example_base)
    ∧ profiles final = profiles (new_scraper example_base)
    ∧ urls_to_visit final
      = urls_to_visit (new_scraper example_base)
        ++ [base_url (new_scraper example_base)]
    ∧ events final
      = events (new_scraper example_base)
        ++ [Write_profiles (profiles (new_scraper example_base))].
Proof.
  apply (no_budget_no_request example_site 0 0 (new_scraper example_base)).
  lia.
Defined.

(** The sample site answers no request but the one for its home page. *)
Lemma failing_start_page_witness :
  ∃ final,
    scrape_website example_site 50 1 (new_scraper (py "http://example.com/missing"))
    = Some final
    ∧ requests final = 1
    ∧ visited_urls final = {[py "http://example.com/missing"]}
    ∧ urls_to_visit final = []
    ∧ profiles final = []
    ∧ events final
      = [Print_scraping (py "http://example.com/missing"); Sleep;
         Print_error_scraping (py "http://example.com/missing");
         Write_profiles []; Write_profiles []].
Proof.
  apply (failing_start_page example_site 50 0 (py "http://example.com/missing")).
  - lia.
  - left. vm_compute. reflexivity.
Defined.

(** A second call on the object of the finished crawl. *)
Lemma second_call_requests_nothing_witness :
  ∃ final,
    scrape_website example_site 50 1 example_final = Some final
    ∧ requests final = requests example_final
    ∧ visited_urls final = visited_urls example_final
    ∧ urls_to_visit final = []
    ∧ profiles final = profiles example_final
    ∧ events final
      = events example_final ++ [Write_profiles (profiles example_final)].
Proof.
  apply (second_call_requests_nothing example_site 50 0 example_final).
  - vm_compute. reflexivity.
  - apply (bool_decide_eq_true_1
             (base_url example_final ∈ visited_urls example_final)).
    vm_compute. reflexivity.
  - lia.
Defined.

Lemma scrape_website_result_witness :
  (urls_to_visit example_final = []
   ∨ Z.of_nat (length (counted_pages (events example_final))) = Z.max 0 50)
  ∧ (Z.of_nat (length (counted_pages (events example_final))) ≤ Z.max 0 50)%Z
  ∧ last (saved_snapshots (events example_final))
    = Some (profiles example_final)
  ∧ (∀ u, u ∈ visited_urls example_final
          ↔ u ∈ scraped_urls (events example_final))
  ∧ NoDup (scraped_urls (events example_final))
  ∧ requests example_final = length (scraped_urls (events example_final))
  ∧ head (discovery_order example_final) = Some example_base.
Proof.
  apply (scrape_website_result example_site 50 2 example_base example_final).
  vm_compute. reflexivity.
Defined.

(* ===================================================================== *)
(** * When a page counts *)
(* ===================================================================== *)

Section Page.

Context (w : world).

Lemma extract_links_finished_iff (hrefs : list str) (u : str) (p : scraper) :
  (extract_links w hrefs u p).1 = true ↔
  Forall (λ href, urljoin w u href ≠ None) hrefs.
Proof.
  split; [|apply extract_links_finishes].
  revert p. induction hrefs as [|href rest IH]; intros p; [constructor|].
  simpl. destruct (urljoin w u href) as [a|] eqn:Hjoin; [|done].
  intros Hfin. constructor; [congruence|]. by eapply IH.
Qed.

Lemma extract_profiles_keeps_profiles (p : scraper) (text : str) :
  profiles (extract_profiles_with_openai w p text).2 = profiles p.
Proof. by destruct (extract_profiles_object w p text) as [-> | ->]. Qed.

(** X17: [scrape_page] returns [True] exactly when the page is fetched
    and parsed, the value returned by the extraction call can extend the
    list of profiles, and [urljoin] accepts every link of the page.  In
    particular a failure of the model's API alone does not fail the
    page. *)
Theorem scrape_page_true_iff (p : scraper) (u : str) :
  (scrape_page w p u).1 = true ↔
  ∃ text hrefs,
    http_get w (requests p) u = Page text hrefs
    ∧ is_Some (list_extend (profiles p)
                 (extract_profiles_with_openai w (count_request p)
                    (clean_text text)).1)
    ∧ Forall (λ href, urljoin w u href ≠ None) hrefs.
Proof.
  unfold scrape_page. cbv zeta.
  destruct (http_get w (requests p) u) as [| | |text hrefs].
  1-3: split; [done | by intros (? & ? & ? & _)].
  pose proof (extract_profiles_keeps_profiles (count_request p) (clean_text text))
    as Hprof.
  change (profiles (count_request p)) with (profiles p) in Hprof.
  assert (Hiff : (∃ text' hrefs',
                    Page text hrefs = Page text' hrefs'
                    ∧ is_Some (list_extend (profiles p)
                         (extract_profiles_with_openai w (count_request p)
                            (clean_text text')).1)
                    ∧ Forall (λ href, urljoin w u href ≠ None) hrefs')
                 ↔ is_Some (list_extend (profiles p)
                      (extract_profiles_with_openai w (count_request p)
                         (clean_text text)).1)
                   ∧ Forall (λ href, urljoin w u href ≠ None) hrefs).
  { split.
    - by intros (text' & hrefs' & [= <- <-] & ? & ?).
    - intros [? ?]. by exists text, hrefs. }
  rewrite Hiff. clear Hiff.
  destruct (extract_profiles_with_openai w (count_request p) (clean_text text))
    as [x p1]. cbn [fst snd] in *. rewrite Hprof.
  destruct (list_extend (profiles p) x) as [extended|].
  - pose proof (extract_links_finished_iff hrefs u (set_profiles extended p1))
      as Hlinks.
    destruct (extract_links w hrefs u (set_profiles extended p1)) as [[] p2];
      cbn [fst] in *.
    + split; [|done]. intros _. split; [by eexists | by apply Hlinks].
    + split; [done|]. intros [_ Hall]. by apply Hlinks in Hall.
  - split; [done|]. intros [Hsome _]. by destruct Hsome.
Qed.

(** X18: once the page is fetched and the list of profiles extended,
    the profiles found stay in the list whatever [scrape_page] returns:
    a page that fails in [extract_links] keeps its profiles. *)
Theorem scrape_page_keeps_profiles (p : scraper) (u : str) (text : str)
    (hrefs : list str) (extended : list json) :
  http_get w (requests p) u = Page text hrefs →
  list_extend (profiles p)
    (extract_profiles_with_openai w (count_request p) (clean_text text)).1
  = Some extended →
  profiles (scrape_page w p u).2 = extended.
Proof.
  intros Hget Hext. unfold scrape_page. cbv zeta. rewrite Hget.
  pose proof (extract_profiles_keeps_profiles (count_request p) (clean_text text))
    as Hprof.
  destruct (extract_profiles_with_openai w (count_request p) (clean_text text))
    as [x p1]. cbn [fst snd] in *.
  change (profiles (count_request p)) with (profiles p) in Hprof.
  rewrite Hprof, Hext.
  destruct (extract_links_frame w hrefs u (set_profiles extended p1))
    as (_ & _ & Hp2 & _).
  by destruct (extract_links w hrefs u (set_profiles extended p1)) as [[] p2].
Qed.

End Page.

(** The home page of the sample site counts although the model's API is
    down. *)
Lemma scrape_page_true_iff_witness :
  (scrape_page example_site_api_down (new_scraper example_base) example_base).1
  = true.
Proof.
  apply (proj2 (scrape_page_true_iff example_site_api_down
                  (new_scraper example_base) example_base)).
  exists (py "Ada  Lovelace"),
    [example_about; py "http://other.com/x"].
  split_and!.
  - vm_compute. reflexivity.
  - vm_compute. eexists. reflexivity.
  - repeat constructor; vm_compute; discriminate.
Defined.

(** A page of the endless site fails in [extract_links]; with a model
    that finds a profile the profile is kept. *)
Lemma scrape_page_keeps_profiles_witness :
  profiles
    (scrape_page
       {| urlparse := urlsplit_ascii; urljoin := urljoin_absolute;
          http_get := http_get endless_site;
          chat_completion := chat_completion example_site |}
       (new_scraper (py "http://example.com/")) (py "http://example.com/")).2
  = [ada].
Proof.
  apply (scrape_page_keeps_profiles _ _ _ []
           [py "http://example.com/a"; py "//["]).
  - vm_compute. reflexivity.
  - vm_compute. reflexivity.
Defined.
